(** * pkg/exec: option-application protocol around process launch

    A shallow embedding of the Go package [exec] (a wrapper around
    [os/exec]) and the verification of its specification.

    The package is a thin layer of state: a [Cmd] wraps a pointer to an
    [os/exec] command, two lifecycle flags and two hooks; options are
    closures from a pointer to a [Cmd] to an [error], applied in order by
    [Start].
    The operating system is reached through a few primitives only
    ([os.Environ], [exec.Cmd.Start], [exec.Cmd.Wait], a [bytes.Buffer]);
    they are the fields of the class [Platform] below and every theorem
    holds for every platform.

    The repository holds the package at three stages; the model follows
    the latest one, which has the hooks, [Setenv] and [System]. *)

From Stdlib Require Import NArith.
From stdpp Require Import base option list strings.

Local Open Scope string_scope.
Local Open Scope list_scope.

(** ** Go values *)

(** A Go [error] that is not nil is identified with its message. *)
Definition error : Type := string.

(** What a call of a function of type [func(...) error] can do: return
    nil, return an error, or panic (a nil pointer dereference). *)
Inductive outcome : Type :=
  | Nil
  | Error (e : error)
  | Panics.

#[export] Instance outcome_eq_dec : EqDecision outcome.
Proof. solve_decision. Defined.

Definition of_error (e : option error) : outcome :=
  match e with None => Nil | Some m => Error m end.

(** The values of the interface types [io.Reader] and [io.Writer] that
    are not nil; a nil interface is [None : option Stream]. *)
Inductive Stream : Type :=
  | os_Stdin
  | os_Stdout
  | os_Stderr
  | bytes_Buffer (b : nat)
  | os_File (fd : nat).

(** ** The package os/exec *)

Module osexec.

(** The fields of [os/exec.Cmd] that this package reads or writes.
    [Env] is a slice: [None] is the nil slice.  The fields the platform
    owns ([Process], [ProcessState], ...) are part of the platform's
    world. *)
Record Cmd : Type := mkCmd {
  Path : string;
  Args : list string;
  Env : option (list string);
  Dir : string;
  Stdin : option Stream;
  Stdout : option Stream;
  Stderr : option Stream
}.

(** [exec.Command(name, arg...)]: [Args] is the name followed by the
    arguments, everything else is zero.  (The search of a bare name in
    PATH is left to the platform's [Start].) *)
Definition Command (name : string) (arg : list string) : Cmd :=
  {| Path := name; Args := name :: arg; Env := None; Dir := "";
     Stdin := None; Stdout := None; Stderr := None |}.

Definition set_Env (v : option (list string)) (c : Cmd) : Cmd :=
  {| Path := Path c; Args := Args c; Env := v; Dir := Dir c;
     Stdin := Stdin c; Stdout := Stdout c; Stderr := Stderr c |}.
Definition set_Dir (v : string) (c : Cmd) : Cmd :=
  {| Path := Path c; Args := Args c; Env := Env c; Dir := v;
     Stdin := Stdin c; Stdout := Stdout c; Stderr := Stderr c |}.
Definition set_Stdin (v : option Stream) (c : Cmd) : Cmd :=
  {| Path := Path c; Args := Args c; Env := Env c; Dir := Dir c;
     Stdin := v; Stdout := Stdout c; Stderr := Stderr c |}.
Definition set_Stdout (v : option Stream) (c : Cmd) : Cmd :=
  {| Path := Path c; Args := Args c; Env := Env c; Dir := Dir c;
     Stdin := Stdin c; Stdout := v; Stderr := Stderr c |}.
Definition set_Stderr (v : option Stream) (c : Cmd) : Cmd :=
  {| Path := Path c; Args := Args c; Env := Env c; Dir := Dir c;
     Stdin := Stdin c; Stdout := Stdout c; Stderr := v |}.

End osexec.

(** ** The platform *)

(** The host's process API, as the package uses it.  [World] is all the
    state outside the [Cmd]: the process table, the contents of buffers
    and files, the state captured by the caller's closures. *)
Class Platform : Type := {
  World : Type;
  (** [os.Environ()] *)
  os_Environ : World -> list string;
  (** [exec.Cmd.Start], the process-creation primitive *)
  osexec_Start : osexec.Cmd -> World -> option error * World;
  (** [exec.Cmd.Wait], which blocks until exit and reaps *)
  osexec_Wait : osexec.Cmd -> World -> option error * World;
  (** [var b bytes.Buffer]: a new, empty buffer *)
  new_Buffer : World -> nat * World;
  (** [b.Bytes()] *)
  Buffer_Bytes : nat -> World -> string
}.

(** ** strings.Fields *)

(** The six ASCII white space bytes (Go's [asciiSpace]). *)
Definition asciiSpace (b : N) : bool :=
  match b with
  | 9%N | 10%N | 11%N | 12%N | 13%N | 32%N => true
  | _ => false
  end.

(** The white space runes of two bytes in UTF-8: U+0085 and U+00A0. *)
Definition space2 (b0 b1 : N) : bool :=
  ((b0 =? 0xC2) && ((b1 =? 0x85) || (b1 =? 0xA0)))%N.

(** The white space runes of three bytes: U+1680, U+2000..U+200A, U+2028,
    U+2029, U+202F, U+205F and U+3000. *)
Definition space3 (b0 b1 b2 : N) : bool :=
  ((b0 =? 0xE1) && (b1 =? 0x9A) && (b2 =? 0x80) ||
   (b0 =? 0xE2) && (b1 =? 0x80) &&
     ((0x80 <=? b2) && (b2 <=? 0x8A) ||
      (b2 =? 0xA8) || (b2 =? 0xA9) || (b2 =? 0xAF)) ||
   (b0 =? 0xE2) && (b1 =? 0x81) && (b2 =? 0x9F) ||
   (b0 =? 0xE3) && (b1 =? 0x80) && (b2 =? 0x80))%N.

(** The number of bytes of the white space rune at the head of [s], 0 when
    there is none.  [unicode.IsSpace] holds of U+0009..U+000D, U+0020 and
    of the runes above.  A lead byte is never a continuation byte, so a
    decoder that walks the string from the left meets each of these
    sequences at a rune boundary, and matching bytes agrees with decoding
    runes, also on invalid UTF-8. *)
Definition spaceWidth (s : string) : nat :=
  match s with
  | String c0 r0 =>
      let b0 := Ascii.N_of_ascii c0 in
      if asciiSpace b0 then 1
      else
        match r0 with
        | String c1 r1 =>
            let b1 := Ascii.N_of_ascii c1 in
            if space2 b0 b1 then 2
            else
              match r1 with
              | String c2 _ =>
                  if space3 b0 b1 (Ascii.N_of_ascii c2) then 3 else 0
              | EmptyString => 0
              end
        | EmptyString => 0
        end
  | EmptyString => 0
  end.

(** The field collected so far, if it is not empty. *)
Definition flush (cur : string) : list string :=
  match cur with
  | EmptyString => []
  | _ => [cur]
  end.

(** One pass from the left: [skip] counts the bytes of a white space rune
    still to be passed over, [cur] is the field being collected. *)
Fixpoint fieldsFrom (s : string) (skip : nat) (cur : string) : list string :=
  match s with
  | EmptyString => flush cur
  | String c rest =>
      match skip with
      | S k => fieldsFrom rest k cur
      | O =>
          match spaceWidth s with
          | O => fieldsFrom rest 0 (cur +:+ String c EmptyString)
          | S k => flush cur ++ fieldsFrom rest k EmptyString
          end
      end
  end.

(** [strings.Fields(s)]: the maximal substrings of [s] without white
    space. *)
Definition Fields (s : string) : list string := fieldsFrom s 0 EmptyString.

(** A white space rune starts somewhere in [t]. *)
Fixpoint hasSpace (t : string) : bool :=
  match t with
  | EmptyString => false
  | String _ r => negb (spaceWidth t =? 0)%nat || hasSpace r
  end.

(** A field: not empty and without white space. *)
Definition isField (t : string) : Prop := t <> "" /\ hasSpace t = false.

(** No white space rune starts in [cur] when [rest] follows it. *)
Fixpoint clearBefore (cur rest : string) : bool :=
  match cur with
  | EmptyString => true
  | String _ r => (spaceWidth (cur +:+ rest) =? 0)%nat && clearBefore r rest
  end.

(** ** The package exec *)

Section Exec.

Context `{Platform}.

(** The functions held in [before] and [after].  Their bodies are the
    caller's, outside this package: they reach the exported part of the
    [Cmd] (the embedded pointer and the fields behind it, [None] being
    the nil pointer) and the world; they are taken not to call the
    methods of the command they are given or to apply options to it, nor
    to overwrite it as a whole. *)
Definition Hook : Type :=
  option osexec.Cmd -> World -> outcome * option osexec.Cmd * World.

(** [type Cmd struct].  The zero value has a nil embedded pointer. *)
Record Cmd : Type := mkCmd {
  Cmd_ : option osexec.Cmd;
  initalised : bool;
  waited : bool;
  before : option Hook;
  after : option Hook
}.

Definition zero_Cmd : Cmd :=
  {| Cmd_ := None; initalised := false; waited := false;
     before := None; after := None |}.

Definition set_Cmd_ (v : option osexec.Cmd) (c : Cmd) : Cmd :=
  {| Cmd_ := v; initalised := initalised c; waited := waited c;
     before := before c; after := after c |}.
Definition set_waited (v : bool) (c : Cmd) : Cmd :=
  {| Cmd_ := Cmd_ c; initalised := initalised c; waited := v;
     before := before c; after := after c |}.
Definition set_before (v : option Hook) (c : Cmd) : Cmd :=
  {| Cmd_ := Cmd_ c; initalised := initalised c; waited := waited c;
     before := v; after := after c |}.
Definition set_after (v : option Hook) (c : Cmd) : Cmd :=
  {| Cmd_ := Cmd_ c; initalised := initalised c; waited := waited c;
     before := before c; after := v |}.

(** [func Command(name string, args ...string)] *)
Definition Command (name : string) (args : list string) : Cmd :=
  {| Cmd_ := Some (osexec.Command name args); initalised := true;
     waited := false; before := None; after := None |}.

(** An option: a function from the pointer to the [Cmd] to an error. *)
Definition Opt : Type := Cmd -> World -> outcome * Cmd * World.

(** An option that reads or writes fields behind the embedded pointer
    panics when the pointer is nil. *)
Definition deref (c : Cmd) (w : World)
    (k : osexec.Cmd -> outcome * osexec.Cmd) : outcome * Cmd * World :=
  match Cmd_ c with
  | None => (Panics, c, w)
  | Some ec => let '(r, ec') := k ec in (r, set_Cmd_ (Some ec') c, w)
  end.

(** [func Stdin(r io.Reader)] *)
Definition Stdin (r : option Stream) : Opt := fun c w =>
  deref c w (fun ec =>
    match osexec.Stdin ec with
    | Some _ => (Error "exec: Stdin already set", ec)
    | None => (Nil, osexec.set_Stdin r ec)
    end).

(** [func Stdout(w io.Writer)] *)
Definition Stdout (wr : option Stream) : Opt := fun c w =>
  deref c w (fun ec =>
    match osexec.Stdout ec with
    | Some _ => (Error "exec: Stdout already set", ec)
    | None => (Nil, osexec.set_Stdout wr ec)
    end).

(** [func Stderr(w io.Writer)] *)
Definition Stderr (wr : option Stream) : Opt := fun c w =>
  deref c w (fun ec =>
    match osexec.Stderr ec with
    | Some _ => (Error "exec: Stderr already set", ec)
    | None => (Nil, osexec.set_Stderr wr ec)
    end).

(** [func BeforeFunc(fn)]; [fn] may be a nil function. *)
Definition BeforeFunc (fn : option Hook) : Opt := fun c w =>
  match before c with
  | Some _ => (Error "exec: BeforeFunc already set", c, w)
  | None => (Nil, set_before fn c, w)
  end.

(** [func AfterFunc(fn)] *)
Definition AfterFunc (fn : option Hook) : Opt := fun c w =>
  match after c with
  | Some _ => (Error "exec: AfterFunc already set", c, w)
  | None => (Nil, set_after fn c, w)
  end.

(** The loop of [Setenv] over [c.Env]: the first entry that starts with
    [key] is overwritten where it stands; [None] when the loop runs to
    its end. *)
Definition setenvLoop (key val : string) (env : list string)
    : option (list string) :=
  match list_find (fun e => String.prefix key e = true) env with
  | Some (i, _) => Some (<[i := key +:+ val]> env)
  | None => None
  end.

(** [func Setenv(key, val string)] *)
Definition Setenv (key val : string) : Opt := fun c w =>
  deref c w (fun ec =>
    let key := key +:+ "=" in
    let env := default [] (osexec.Env ec) in
    match setenvLoop key val env with
    | Some env' => (Nil, osexec.set_Env (Some env') ec)
    | None => (Nil, osexec.set_Env (Some (env ++ [key +:+ val])) ec)
    end).

(** [func Dir(dir string)] *)
Definition Dir (dir : string) : Opt := fun c w =>
  deref c w (fun ec => (Nil, osexec.set_Dir dir ec)).

(** *** Running a command *)

(** What the package does to the platform and to the hooks, in order;
    ghost state that no option, hook or platform primitive can reach.
    An event is recorded when the call is made, whatever the call
    returns. *)
Inductive Event : Type :=
  | EvEnviron                           (* os.Environ() *)
  | EvBefore                            (* c.before(c) *)
  | EvProcessStart (spec : osexec.Cmd)  (* c.Cmd.Start() *)
  | EvProcessWait                       (* c.Cmd.Wait() *)
  | EvAfter.                            (* c.after(c) *)

Record State : Type := mkState {
  st_cmd : Cmd;
  st_world : World;
  st_trace : list Event
}.

(** A method of [Cmd]: the receiver and the world are threaded. *)
Definition M (A : Type) : Type := State -> A * State.

(** [if err := m; err != nil { return err }; k], a panic propagating
    the same way. *)
Definition andThen (m k : M outcome) : M outcome := fun s =>
  let '(r, s') := m s in
  match r with
  | Nil => k s'
  | _ => (r, s')
  end.

Definition runOpt (opt : Opt) : M outcome := fun s =>
  let '(r, c, w) := opt (st_cmd s) (st_world s) in
  (r, mkState c w (st_trace s)).

Definition callHook (ev : Event) (h : Hook) : M outcome := fun s =>
  let '(r, ec, w) := h (Cmd_ (st_cmd s)) (st_world s) in
  (r, mkState (set_Cmd_ ec (st_cmd s)) w (st_trace s ++ [ev])).

(** [func applyDefaultOptions(c *Cmd) error] *)
Definition applyDefaultOptions : M outcome := fun s =>
  match Cmd_ (st_cmd s) with
  | None => (Panics, s)
  | Some ec =>
      match osexec.Env ec with
      | None =>
          let ec' := osexec.set_Env (Some (os_Environ (st_world s))) ec in
          (Nil, mkState (set_Cmd_ (Some ec') (st_cmd s)) (st_world s)
                        (st_trace s ++ [EvEnviron]))
      | Some _ => (Nil, s)
      end
  end.

(** [func applyOptions(c *Cmd, opts ...func(c *Cmd) error) error] *)
Fixpoint applyOptions (opts : list Opt) : M outcome :=
  match opts with
  | [] => fun s => (Nil, s)
  | opt :: rest => andThen (runOpt opt) (applyOptions rest)
  end.

(** [if c.before != nil { if err := c.before(c); ... }] *)
Definition runBefore : M outcome := fun s =>
  match before (st_cmd s) with
  | Some h => callHook EvBefore h s
  | None => (Nil, s)
  end.

(** [c.Cmd.Start()] *)
Definition Cmd_Start : M outcome := fun s =>
  match Cmd_ (st_cmd s) with
  | None => (Panics, s)
  | Some ec =>
      let '(e, w) := osexec_Start ec (st_world s) in
      (of_error e, mkState (st_cmd s) w (st_trace s ++ [EvProcessStart ec]))
  end.

(** [c.Cmd.Wait()] *)
Definition Cmd_Wait : M outcome := fun s =>
  match Cmd_ (st_cmd s) with
  | None => (Panics, s)
  | Some ec =>
      let '(e, w) := osexec_Wait ec (st_world s) in
      (of_error e, mkState (st_cmd s) w (st_trace s ++ [EvProcessWait]))
  end.

(** [func (c *Cmd) Start(opts ...func(c *Cmd) error) error] *)
Definition Start (opts : list Opt) : M outcome := fun s =>
  if negb (initalised (st_cmd s)) then
    (Error "exec: command not initalised", s)
  else
    andThen applyDefaultOptions
      (andThen (applyOptions opts)
         (andThen runBefore Cmd_Start)) s.

(** The deferred function of [Wait], run when [c.Cmd.Wait()] has
    returned [r] or panicked: it reads [c.after] then, and writes the
    named result [err] only when that is nil. *)
Definition deferredAfter (r : outcome) : M outcome := fun s =>
  match after (st_cmd s) with
  | None => (r, s)
  | Some h =>
      let '(errAfter, s') := callHook EvAfter h s in
      (match errAfter, r with
       | Panics, _ => Panics
       | _, Panics => Panics
       | _, Nil => errAfter
       | _, Error e => Error e
       end, s')
  end.

(** [func (c *Cmd) Wait() (err error)] *)
Definition Wait : M outcome := fun s =>
  if waited (st_cmd s) then
    (Error "exec: Wait was already called", s)
  else
    let s := mkState (set_waited true (st_cmd s)) (st_world s) (st_trace s) in
    let '(r, s) := Cmd_Wait s in
    deferredAfter r s.

(** [func (c *Cmd) Run(opts ...func(c *Cmd) error) error] *)
Definition Run (opts : list Opt) : M outcome :=
  andThen (Start opts) Wait.

(** [func (c *Cmd) Output(opts ...func(c *Cmd) error) ([]byte, error)] *)
Definition Output (opts : list Opt) : M (string * outcome) := fun s =>
  let '(b, w) := new_Buffer (st_world s) in
  let opts := [Stdout (Some (bytes_Buffer b))] ++ opts in
  let '(err, s) := Run opts (mkState (st_cmd s) w (st_trace s)) in
  ((Buffer_Bytes b (st_world s), err), s).

(** [func System(command string, opts ...func(c *Cmd) error) error].  The
    [Cmd] is System's own; the final state is returned with the error so
    that the command and the trace can be inspected. *)
Definition System (command : string) (opts : list Opt) (w : World)
    : outcome * State :=
  let args := Fields command in
  let args := ["-c"] ++ args in
  let cmd := Command "/bin/sh" args in
  let opts := [Stdin (Some os_Stdin);
               Stdout (Some os_Stdout);
               Stderr (Some os_Stderr)] ++ opts in
  Run opts (mkState cmd w []).

End Exec.

Arguments mkState {_} _ _ _.

(** ** Words of the specification *)

Section Spec.

Context `{Platform}.

(** The options of a list applied one after the other, each returning
    nil, from one state to another. *)
Inductive appliedInOrder : list Opt -> State -> State -> Prop :=
  | applied_nil s :
      appliedInOrder [] s s
  | applied_cons opt rest s s1 s2 :
      runOpt opt s = (Nil, s1) ->
      appliedInOrder rest s1 s2 ->
      appliedInOrder (opt :: rest) s s2.

(** Start stops short of process creation: some option, reached after
    the options before it were applied in order, does not return nil;
    or all options were applied and the before-hook does not return
    nil. *)
Inductive stopsBeforeProcess (opts : list Opt) (s0 : State)
    : outcome -> State -> Prop :=
  | stops_at_option pre opt post s1 r s2 :
      opts = pre ++ opt :: post ->
      appliedInOrder pre s0 s1 ->
      runOpt opt s1 = (r, s2) ->
      r <> Nil ->
      stopsBeforeProcess opts s0 r s2
  | stops_at_before h s1 r s2 :
      appliedInOrder opts s0 s1 ->
      before (st_cmd s1) = Some h ->
      callHook EvBefore h s1 = (r, s2) ->
      r <> Nil ->
      stopsBeforeProcess opts s0 r s2.

(** How often the process-creation primitive was invoked. *)
Definition isProcessStart (ev : Event) : bool :=
  match ev with EvProcessStart _ => true | _ => false end.
Definition processStarts (tr : list Event) : nat :=
  length (filter (fun ev => isProcessStart ev = true) tr).

(** The configuration errors of the write-once fields. *)
Definition alreadySet (e : error) : Prop :=
  e ∈ ["exec: Stdin already set"; "exec: Stdout already set";
       "exec: Stderr already set"; "exec: BeforeFunc already set";
       "exec: AfterFunc already set"].

(** The options this package constructs. *)
Inductive builtin : Opt -> Prop :=
  | builtin_Dir d : builtin (Dir d)
  | builtin_Stdin r : builtin (Stdin r)
  | builtin_Stdout wr : builtin (Stdout wr)
  | builtin_Stderr wr : builtin (Stderr wr)
  | builtin_BeforeFunc fn : builtin (BeforeFunc fn)
  | builtin_AfterFunc fn : builtin (AfterFunc fn)
  | builtin_Setenv k v : builtin (Setenv k v).

(** The options that only write the working directory or the
    environment. *)
Inductive plain : Opt -> Prop :=
  | plain_Dir d : plain (Dir d)
  | plain_Setenv k v : plain (Setenv k v).

(** The entries of an environment for a key: those that start with
    the key and an equals sign, as [Setenv] looks for them. *)
Definition entriesFor (key : string) (env : list string) : list string :=
  filter (fun e => String.prefix (key +:+ "=") e = true) env.

(** The calls a caller can make on a [Cmd]. *)
Inductive Call : Type :=
  | CallStart (opts : list Opt)
  | CallWait
  | CallRun (opts : list Opt)
  | CallOutput (opts : list Opt).

Definition call (k : Call) (s : State) : State :=
  match k with
  | CallStart opts => (Start opts s).2
  | CallWait => (Wait s).2
  | CallRun opts => (Run opts s).2
  | CallOutput opts => (Output opts s).2
  end.

Definition calls (ks : list Call) (s : State) : State :=
  foldl (fun s k => call k s) s ks.

Definition optionsOf (k : Call) : list Opt :=
  match k with
  | CallStart opts | CallRun opts | CallOutput opts => opts
  | CallWait => []
  end.

(** An option that does not clear [waited].  The field is not
    exported: the options of this package are such, and so is a closure
    written outside it that does not overwrite the command as a whole. *)
Definition keepsWaited (opt : Opt) : Prop :=
  forall c w, waited c = true -> waited (opt c w).1.2 = true.

(** A field is write-once under an option: applied first with the
    value [v] and then again (with any value), the second application
    fails with [msg] and changes nothing; the first sets the field to
    [v] when the field was unset, and fails the same way when it was
    set. *)
Definition writeOnce {V} (first second : Opt) (msg : error)
    (field : Cmd -> option V) (v : V) (c : Cmd) (w : World) : Prop :=
  let '(r1, c1, w1) := first c w in
  second c1 w1 = (Error msg, c1, w1) /\
  (field c = None -> r1 = Nil /\ field c1 = Some v /\ w1 = w) /\
  (field c <> None -> r1 = Error msg /\ c1 = c /\ w1 = w).

(** An option that returns nil on every command that has its embedded
    command. *)
Definition neverFails (opt : Opt) : Prop :=
  forall c w, Cmd_ c <> None -> (opt c w).1.1 = Nil.

(** What [Setenv] makes of the environment. *)
Definition envSet (key val : string) (env : list string) : list string :=
  match setenvLoop (key +:+ "=") val env with
  | Some env' => env'
  | None => env ++ [(key +:+ "=") +:+ val]
  end.

(** The command has its standard output bound. *)
Definition stdoutSet (c : Cmd) : Prop :=
  is_Some (Cmd_ c ≫= osexec.Stdout).

(** What the default options make of the embedded command. *)
Definition withEnviron (w : World) (ec : osexec.Cmd) : osexec.Cmd :=
  match osexec.Env ec with
  | None => osexec.set_Env (Some (os_Environ w)) ec
  | Some _ => ec
  end.

(** What the default options add to the trace. *)
Definition defaultsTrace (ec : osexec.Cmd) : list Event :=
  match osexec.Env ec with
  | None => [EvEnviron]
  | Some _ => []
  end.

(** The command System hands to the platform when the caller gives no
    options. *)
Definition shellSpec (command : string) (w : World) : osexec.Cmd :=
  {| osexec.Path := "/bin/sh";
     osexec.Args := "/bin/sh" :: "-c" :: Fields command;
     osexec.Env := Some (os_Environ w);
     osexec.Dir := "";
     osexec.Stdin := Some os_Stdin;
     osexec.Stdout := Some os_Stdout;
     osexec.Stderr := Some os_Stderr |}.

(** A method that does not clear [waited]. *)
Definition preservesWaited {A} (m : M A) : Prop :=
  forall s, waited (st_cmd s) = true -> waited (st_cmd (m s).2) = true.

(** A closure written by the caller that works on the exported part of
    the [Cmd], as an option. *)
Definition custom (f : Hook) : Opt := fun c w =>
  let '(r, ec, w') := f (Cmd_ c) w in (r, set_Cmd_ ec c, w').

End Spec.

(** ** A simulated platform

    A small, executable platform to run the package on: the child writes
    its arguments after the first to its standard output when that is a
    buffer, and exits as the world says. *)

Record SimWorld : Type := mkSim {
  sim_environ : list string;
  sim_buffers : list string;
  sim_startError : option error;
  sim_exitError : option error
}.

Definition sim_write (out : option Stream) (data : string) (w : SimWorld)
    : SimWorld :=
  match out with
  | Some (bytes_Buffer b) =>
      {| sim_environ := sim_environ w;
         sim_buffers := alter (fun old => old +:+ data) b (sim_buffers w);
         sim_startError := sim_startError w;
         sim_exitError := sim_exitError w |}
  | _ => w
  end.

#[export] Instance sim : Platform := {|
  World := SimWorld;
  os_Environ := sim_environ;
  osexec_Start := fun ec w => (sim_startError w, w);
  osexec_Wait := fun ec w =>
    (sim_exitError w,
     sim_write (osexec.Stdout ec)
       (String.concat " " (tail (osexec.Args ec)) +:+
        String (Ascii.ascii_of_nat 10) "") w);
  new_Buffer := fun w =>
    (length (sim_buffers w),
     {| sim_environ := sim_environ w;
        sim_buffers := sim_buffers w ++ [""];
        sim_startError := sim_startError w;
        sim_exitError := sim_exitError w |});
  Buffer_Bytes := fun b w => default "" (sim_buffers w !! b)
|}.

Definition sim_world : SimWorld :=
  {| sim_environ := ["HOME=/root"; "PATH=/bin"];
     sim_buffers := [];
     sim_startError := None;
     sim_exitError := None |}.

Definition sim_failing : SimWorld :=
  {| sim_environ := ["HOME=/root"; "PATH=/bin"];
     sim_buffers := [];
     sim_startError := None;
     sim_exitError := Some "exit status 1" |}.

(** A world whose environment holds the key K twice.  (A process can be
    handed such an environment; the same list arises in [c.Env] from
    [cmd.Env = append(os.Environ(), "K=b")].) *)
Definition sim_duplicates : SimWorld :=
  {| sim_environ := ["K=a"; "HOME=/root"; "K=b"];
     sim_buffers := [];
     sim_startError := None;
     sim_exitError := None |}.

(** A hook that fails, and one that changes the working directory. *)
Definition hook_fails : Hook := fun ec w => (Error "hook failed", ec, w).
Definition hook_ok : Hook := fun ec w => (Nil, osexec.set_Dir "/tmp" <$> ec, w).

(** Commands to run on it. *)
Definition sim_zero : State := mkState zero_Cmd sim_world [].
Definition sim_git : State := mkState (Command "git" ["status"]) sim_world [].
Definition sim_echo : State := mkState (Command "echo" ["hello"]) sim_world [].
Definition sim_false : State :=
  mkState (set_after (Some hook_fails) (Command "false" [])) sim_failing [].
Definition sim_partial : State :=
  mkState (Command "echo" ["partial"]) sim_failing [].
Definition sim_go : State := mkState (Command "go" []) sim_duplicates [].

(** ** The earlier stages of the package

    [src/exec.go] is the package before the hooks, [Setenv], [System] and
    the flag [waited]: the options work on the embedded command, the
    default pass does nothing, and [Wait] is the method of the embedded
    command.  The first part of the third source file is an earlier
    stage still: it has the same text for [Command], [Run], [Start],
    [Stdout], [Dir] and the two passes, and an [Output] that puts its own
    option after the caller's. *)

Module exec_go.

Section ExecGo.

Context `{Platform}.

(** [type Cmd struct] *)
Record Cmd : Type := mkCmd {
  Cmd_ : option osexec.Cmd;
  initalised : bool
}.

(** [func Command(name string, args ...string)] *)
Definition Command (name : string) (args : list string) : Cmd :=
  {| Cmd_ := Some (osexec.Command name args); initalised := true |}.

(** An option, of type [func(c *exec.Cmd) error]: it is given the
    embedded pointer ([None] when nil) and leaves what the pointer
    points to. *)
Definition Opt : Type :=
  option osexec.Cmd -> World -> outcome * option osexec.Cmd * World.

Definition deref (p : option osexec.Cmd) (w : World)
    (k : osexec.Cmd -> outcome * osexec.Cmd)
    : outcome * option osexec.Cmd * World :=
  match p with
  | None => (Panics, None, w)
  | Some ec => let '(r, ec') := k ec in (r, Some ec', w)
  end.

(** [func Stdin(r io.Reader)] *)
Definition Stdin (r : option Stream) : Opt := fun p w =>
  deref p w (fun ec =>
    match osexec.Stdin ec with
    | Some _ => (Error "exec: Stdin already set", ec)
    | None => (Nil, osexec.set_Stdin r ec)
    end).

(** [func Stdout(w io.Writer)] *)
Definition Stdout (wr : option Stream) : Opt := fun p w =>
  deref p w (fun ec =>
    match osexec.Stdout ec with
    | Some _ => (Error "exec: Stdout already set", ec)
    | None => (Nil, osexec.set_Stdout wr ec)
    end).

(** [func Stderr(w io.Writer)] *)
Definition Stderr (wr : option Stream) : Opt := fun p w =>
  deref p w (fun ec =>
    match osexec.Stderr ec with
    | Some _ => (Error "exec: Stderr already set", ec)
    | None => (Nil, osexec.set_Stderr wr ec)
    end).

(** [func Dir(dir string)] *)
Definition Dir (dir : string) : Opt := fun p w =>
  deref p w (fun ec => (Nil, osexec.set_Dir dir ec)).

Record State : Type := mkState {
  st_cmd : Cmd;
  st_world : World;
  st_trace : list Event
}.

Definition M (A : Type) : Type := State -> A * State.

Definition andThen (m k : M outcome) : M outcome := fun s =>
  let '(r, s') := m s in
  match r with
  | Nil => k s'
  | _ => (r, s')
  end.

Definition runOpt (opt : Opt) : M outcome := fun s =>
  let '(r, p, w) := opt (Cmd_ (st_cmd s)) (st_world s) in
  (r, mkState {| Cmd_ := p; initalised := initalised (st_cmd s) |} w
        (st_trace s)).

(** [func applyDefaultOptions(c *exec.Cmd) error { return nil }] *)
Definition applyDefaultOptions : M outcome := fun s => (Nil, s).

(** [func applyOptions(c *exec.Cmd, opts ...func(c *exec.Cmd) error) error] *)
Fixpoint applyOptions (opts : list Opt) : M outcome :=
  match opts with
  | [] => fun s => (Nil, s)
  | opt :: rest => andThen (runOpt opt) (applyOptions rest)
  end.

(** [c.Cmd.Start()] *)
Definition Cmd_Start : M outcome := fun s =>
  match Cmd_ (st_cmd s) with
  | None => (Panics, s)
  | Some ec =>
      let '(e, w) := osexec_Start ec (st_world s) in
      (of_error e, mkState (st_cmd s) w (st_trace s ++ [EvProcessStart ec]))
  end.

(** [c.Wait()], the method of the embedded command *)
Definition Wait : M outcome := fun s =>
  match Cmd_ (st_cmd s) with
  | None => (Panics, s)
  | Some ec =>
      let '(e, w) := osexec_Wait ec (st_world s) in
      (of_error e, mkState (st_cmd s) w (st_trace s ++ [EvProcessWait]))
  end.

(** [func (c *Cmd) Start(opts ...func(c *exec.Cmd) error) error] *)
Definition Start (opts : list Opt) : M outcome := fun s =>
  if negb (initalised (st_cmd s)) then
    (Error "exec: command not initalised", s)
  else
    andThen applyDefaultOptions (andThen (applyOptions opts) Cmd_Start) s.

(** [func (c *Cmd) Run(opts ...func(c *exec.Cmd) error) error] *)
Definition Run (opts : list Opt) : M outcome :=
  andThen (Start opts) Wait.

(** [func (c *Cmd) Output(opts ...func(c *exec.Cmd) error) ([]byte, error)] *)
Definition Output (opts : list Opt) : M (string * outcome) := fun s =>
  let '(b, w) := new_Buffer (st_world s) in
  let opts := [Stdout (Some (bytes_Buffer b))] ++ opts in
  let '(err, s) := Run opts (mkState (st_cmd s) w (st_trace s)) in
  ((Buffer_Bytes b (st_world s), err), s).

(** The options of this stage. *)
Inductive builtin : Opt -> Prop :=
  | builtin_Dir d : builtin (Dir d)
  | builtin_Stdin r : builtin (Stdin r)
  | builtin_Stdout wr : builtin (Stdout wr)
  | builtin_Stderr wr : builtin (Stderr wr).

End ExecGo.

End exec_go.

Module exec_first.

Section ExecFirst.

Context `{Platform}.

(** [func (c *Cmd) Output(opts ...func(c *exec.Cmd) error) ([]byte, error)]
    of the first stage: [c.Run(append(opts, Stdout(&b))...)]. *)
Definition Output (opts : list exec_go.Opt) : exec_go.M (string * outcome) :=
  fun s =>
    let '(b, w) := new_Buffer (exec_go.st_world s) in
    let '(err, s) :=
      exec_go.Run (opts ++ [exec_go.Stdout (Some (bytes_Buffer b))])
        (exec_go.mkState (exec_go.st_cmd s) w (exec_go.st_trace s)) in
    ((Buffer_Bytes b (exec_go.st_world s), err), s).

(** The options of the first stage. *)
Inductive builtin : exec_go.Opt -> Prop :=
  | builtin_Dir d : builtin (exec_go.Dir d)
  | builtin_Stdout wr : builtin (exec_go.Stdout wr).

End ExecFirst.

End exec_first.

(** ** More words for the properties of the code *)

Section MoreSpec.

Context `{Platform}.

(** The environment of a command as a list (a nil slice is empty). *)
Definition envOf (c : Cmd) : list string :=
  default [] (Cmd_ c ≫= osexec.Env).

(** A key without an equals sign. *)
Fixpoint noEquals (key : string) : bool :=
  match key with
  | EmptyString => true
  | String a rest =>
      negb (Ascii.eqb a (Ascii.ascii_of_nat 61)) && noEquals rest
  end.

(** A string of ASCII white space only. *)
Fixpoint blank (s : string) : bool :=
  match s with
  | EmptyString => true
  | String a rest => asciiSpace (Ascii.N_of_ascii a) && blank rest
  end.

(** The events of the wait: the platform wait and the after-hook. *)
Definition isWaitEvent (ev : Event) : bool :=
  match ev with
  | EvProcessWait | EvAfter => true
  | _ => false
  end.

(** What the earlier stage sees of a state of the latest: the embedded
    command and the flag [initalised], the world and the trace. *)
Definition forget (s : State) : exec_go.State :=
  exec_go.mkState
    {| exec_go.Cmd_ := Cmd_ (st_cmd s);
       exec_go.initalised := initalised (st_cmd s) |}
    (st_world s) (st_trace s).

(** An option of the latest stage that does what an option of the
    earlier stage does to the embedded command. *)
Definition lifts (opt : Opt) (old : exec_go.Opt) : Prop :=
  forall c w, opt c w = custom old c w.

(** An option of the latest stage and the option of src/exec.go it took
    the place of: the one of the same name, or the same closure over the
    embedded command. *)
Inductive sameOption : Opt -> exec_go.Opt -> Prop :=
  | sameOption_Stdin r : sameOption (Stdin r) (exec_go.Stdin r)
  | sameOption_Stdout wr : sameOption (Stdout wr) (exec_go.Stdout wr)
  | sameOption_Stderr wr : sameOption (Stderr wr) (exec_go.Stderr wr)
  | sameOption_Dir d : sameOption (Dir d) (exec_go.Dir d)
  | sameOption_custom f : sameOption (custom f) f.

(** The options of the first stage that bind no stream: Dir, and Stdout
    with a nil writer. *)
Inductive bindsNothing : exec_go.Opt -> Prop :=
  | bindsNothing_Dir d : bindsNothing (exec_go.Dir d)
  | bindsNothing_Stdout : bindsNothing (exec_go.Stdout None).

End MoreSpec.

(** More commands for the simulated platform. *)
Definition sim_old : exec_go.State :=
  exec_go.mkState (exec_go.Command "git" ["status"]) sim_world [].
Definition sim_hooks : State :=
  mkState (Command "sleep" ["60s"]) sim_world [].
Definition sim_nil : State :=
  mkState (set_after (Some hook_ok) zero_Cmd) sim_world [].
Definition sim_bound : State :=
  mkState (set_Cmd_
             (Some (osexec.set_Stdout (Some os_Stdout)
                      (osexec.Command "git" ["status"])))
             (Command "git" ["status"]))
    sim_world [].

(** ** Verification of Fields *)

Section FieldsProofs.

Implicit Types (s t u cur rest : string) (ts : list string).

Lemma append_nil s : "" +:+ s = s.
Proof. reflexivity. Qed.

Lemma append_cons a s t : String a s +:+ t = String a (s +:+ t).
Proof. reflexivity. Qed.

Lemma append_assoc s t u : (s +:+ t) +:+ u = s +:+ (t +:+ u).
Proof.
  induction s as [|a s IH]; [reflexivity|].
  rewrite !append_cons, IH. reflexivity.
Qed.

Lemma append_nil_r s : s +:+ "" = s.
Proof.
  induction s as [|a s IH]; [reflexivity|]. rewrite append_cons, IH.
  reflexivity.
Qed.

Lemma snoc_append s a t : (s +:+ String a "") +:+ t = s +:+ String a t.
Proof. rewrite append_assoc, append_cons, append_nil. reflexivity. Qed.

(** A white space rune at the head of [t] is one at the head of every
    extension of [t]. *)
Lemma spaceWidth_app_0 t rest :
  spaceWidth (t +:+ rest) = 0 -> spaceWidth t = 0.
Proof.
  destruct t as [|c0 [|c1 [|c2 t]]]; rewrite ?append_cons, ?append_nil;
    unfold spaceWidth; try reflexivity.
  - destruct (asciiSpace _); [discriminate|reflexivity].
  - destruct (asciiSpace _); [discriminate|].
    destruct (space2 _ _); [discriminate|reflexivity].
  - auto.
Qed.

Lemma spaceWidth_le_length t : spaceWidth t <= String.length t.
Proof.
  destruct t as [|c0 [|c1 [|c2 t]]]; unfold spaceWidth;
    cbn [String.length]; repeat case_match; lia.
Qed.

Lemma clearBefore_snoc cur c rest :
  clearBefore cur (String c rest) = true ->
  spaceWidth (String c rest) = 0 ->
  clearBefore (cur +:+ String c "") rest = true.
Proof.
  intros Hcur Hc. induction cur as [|a cur IH].
  - rewrite append_nil. cbn [clearBefore].
    rewrite append_cons, append_nil, Hc. reflexivity.
  - rewrite append_cons. cbn [clearBefore] in *.
    apply andb_true_iff in Hcur as [Ha Hcur].
    rewrite append_cons, snoc_append, <- append_cons.
    rewrite Ha. apply IH, Hcur.
Qed.

Lemma clearBefore_hasSpace cur rest :
  clearBefore cur rest = true -> hasSpace cur = false.
Proof.
  induction cur as [|a cur IH]; [reflexivity|].
  cbn [clearBefore hasSpace]. intros [Ha Hcur]%andb_true_iff.
  apply Nat.eqb_eq, spaceWidth_app_0 in Ha.
  rewrite Ha, IH by exact Hcur. reflexivity.
Qed.

Lemma flush_isField cur rest :
  clearBefore cur rest = true -> Forall isField (flush cur).
Proof.
  intros Hcur. destruct cur as [|a cur]; [constructor|].
  repeat constructor; [discriminate|].
  eapply clearBefore_hasSpace, Hcur.
Qed.

Lemma fieldsFrom_isField s : forall skip cur,
  clearBefore cur s = true ->
  (skip <> 0 -> cur = "") ->
  Forall isField (fieldsFrom s skip cur).
Proof.
  induction s as [|c rest IH]; intros skip cur Hcur Hskip.
  - cbn [fieldsFrom]. eapply flush_isField, Hcur.
  - cbn [fieldsFrom]. destruct skip as [|k].
    + destruct (spaceWidth (String c rest)) as [|k] eqn:Hw.
      * apply IH; [|congruence]. apply clearBefore_snoc; assumption.
      * apply Forall_app. split; [eapply flush_isField, Hcur|].
        apply IH; reflexivity.
    + rewrite Hskip by discriminate. apply IH; reflexivity.
Qed.

(** Every string that Fields returns is a field. *)
Lemma Fields_isField s : Forall isField (Fields s).
Proof. apply fieldsFrom_isField; [reflexivity|congruence]. Qed.

Lemma fieldsFrom_no_space t : forall cur,
  hasSpace t = false -> fieldsFrom t 0 cur = flush (cur +:+ t).
Proof.
  induction t as [|c t IH]; intros cur Ht.
  - rewrite append_nil_r. reflexivity.
  - cbn [hasSpace] in Ht. apply orb_false_iff in Ht as [Hc Ht].
    apply negb_false_iff, Nat.eqb_eq in Hc.
    cbn [fieldsFrom]. rewrite Hc, IH by exact Ht.
    rewrite snoc_append. reflexivity.
Qed.

(** A field is its own and only field. *)
Lemma Fields_field t : isField t -> Fields t = [t].
Proof.
  intros [Hne Ht]. unfold Fields. rewrite fieldsFrom_no_space by exact Ht.
  destruct t; [congruence|reflexivity].
Qed.

(** *** Splitting at an ASCII white space byte *)

Lemma asciiSpace_small b : asciiSpace b = true -> (b <= 32)%N.
Proof.
  unfold asciiSpace. destruct b as [|p]; [discriminate|].
  do 6 (try (destruct p as [p|p|]; try discriminate)); lia.
Qed.

Lemma space2_ascii b0 b : asciiSpace b = true -> space2 b0 b = false.
Proof.
  intros Hb%asciiSpace_small. unfold space2.
  rewrite (proj2 (N.eqb_neq b 0x85)), (proj2 (N.eqb_neq b 0xA0)) by lia.
  apply andb_false_r.
Qed.

Lemma space3_ascii_mid b0 b b2 : asciiSpace b = true -> space3 b0 b b2 = false.
Proof.
  intros Hb%asciiSpace_small. unfold space3.
  rewrite (proj2 (N.eqb_neq b 0x9A)), (proj2 (N.eqb_neq b 0x80)),
    (proj2 (N.eqb_neq b 0x81)) by lia.
  rewrite !andb_false_r. reflexivity.
Qed.

Lemma space3_ascii_last b0 b1 b : asciiSpace b = true -> space3 b0 b1 b = false.
Proof.
  intros Hb%asciiSpace_small. unfold space3.
  rewrite (proj2 (N.eqb_neq b 0x80)), (proj2 (N.eqb_neq b 0xA8)),
    (proj2 (N.eqb_neq b 0xA9)), (proj2 (N.eqb_neq b 0xAF)),
    (proj2 (N.eqb_neq b 0x9F)), (proj2 (N.leb_gt 0x80 b)) by lia.
  cbn [andb orb]. rewrite !andb_false_r. reflexivity.
Qed.

(** What follows an ASCII white space byte does not make white space
    of what stands before it. *)
Lemma spaceWidth_before_space u sp rest :
  asciiSpace (Ascii.N_of_ascii sp) = true ->
  u <> "" ->
  spaceWidth (u +:+ String sp rest) = spaceWidth u.
Proof.
  intros Hsp Hu. destruct u as [|c0 [|c1 [|c2 u]]]; [congruence|..];
    rewrite ?append_cons, ?append_nil; unfold spaceWidth.
  - rewrite (space2_ascii _ _ Hsp).
    destruct rest; rewrite ?(space3_ascii_mid _ _ _ Hsp); reflexivity.
  - rewrite (space3_ascii_last _ _ _ Hsp). reflexivity.
  - reflexivity.
Qed.

Lemma fieldsFrom_app_space s : forall skip cur sp rest,
  asciiSpace (Ascii.N_of_ascii sp) = true ->
  skip <= String.length s ->
  fieldsFrom (s +:+ String sp rest) skip cur =
    fieldsFrom s skip cur ++ Fields rest.
Proof.
  induction s as [|c s IH]; intros skip cur sp rest Hsp Hskip.
  - cbn [String.length] in Hskip. replace skip with 0 by lia.
    rewrite append_nil. cbn [fieldsFrom]. unfold spaceWidth. rewrite Hsp.
    reflexivity.
  - cbn [String.length] in Hskip. rewrite append_cons. cbn [fieldsFrom].
    destruct skip as [|k]; [|apply IH; [exact Hsp|lia]].
    rewrite <- append_cons, spaceWidth_before_space
      by (exact Hsp || discriminate).
    pose proof (spaceWidth_le_length (String c s)) as Hle.
    cbn [String.length] in Hle.
    destruct (spaceWidth (String c s)) as [|k].
    + apply IH; [exact Hsp|lia].
    + rewrite IH by (exact Hsp || lia). apply app_assoc.
Qed.

Lemma Fields_app_space s sp rest :
  asciiSpace (Ascii.N_of_ascii sp) = true ->
  Fields (s +:+ String sp rest) = Fields s ++ Fields rest.
Proof. intros Hsp. apply fieldsFrom_app_space; [exact Hsp|lia]. Qed.

(** Fields gives back the fields that were joined by single spaces. *)
Lemma Fields_concat ts :
  Forall isField ts -> Fields (String.concat " " ts) = ts.
Proof.
  induction 1 as [|t ts Ht Hts IH]; [reflexivity|].
  destruct ts as [|t' ts].
  - apply Fields_field, Ht.
  - change (String.concat " " (t :: t' :: ts))
      with (t +:+ String (Ascii.ascii_of_nat 32) (String.concat " " (t' :: ts))).
    rewrite Fields_app_space by reflexivity.
    rewrite IH, Fields_field by exact Ht. reflexivity.
Qed.

End FieldsProofs.

(** ** Verification *)

Section Proofs.

Context `{Platform}.

Implicit Types (s : State) (c : Cmd) (w : World) (opts : list Opt).

(** *** The lifecycle flag [waited] *)

Lemma callHook_waited ev h s :
  waited (st_cmd (callHook ev h s).2) = waited (st_cmd s).
Proof.
  unfold callHook. destruct (h _ _) as [[r ec] w]. reflexivity.
Qed.

Lemma callHook_trace ev h s :
  st_trace (callHook ev h s).2 = st_trace s ++ [ev].
Proof.
  unfold callHook. destruct (h _ _) as [[r ec] w]. reflexivity.
Qed.

Lemma Cmd_Wait_cmd s : st_cmd (Cmd_Wait s).2 = st_cmd s.
Proof.
  unfold Cmd_Wait. destruct (Cmd_ (st_cmd s)); [|reflexivity].
  destruct (osexec_Wait _ _). reflexivity.
Qed.

Lemma Cmd_Start_cmd s : st_cmd (Cmd_Start s).2 = st_cmd s.
Proof.
  unfold Cmd_Start. destruct (Cmd_ (st_cmd s)); [|reflexivity].
  destruct (osexec_Start _ _). reflexivity.
Qed.

Lemma deferredAfter_waited r s :
  waited (st_cmd (deferredAfter r s).2) = waited (st_cmd s).
Proof.
  unfold deferredAfter. destruct (after (st_cmd s)) as [h|]; [|reflexivity].
  pose proof (callHook_waited EvAfter h s) as Hw.
  destruct (callHook EvAfter h s) as [ra s']. exact Hw.
Qed.

Lemma Wait_already s :
  waited (st_cmd s) = true ->
  Wait s = (Error "exec: Wait was already called", s).
Proof. intros Hw. unfold Wait. rewrite Hw. reflexivity. Qed.

Lemma Wait_sets_waited s : waited (st_cmd (Wait s).2) = true.
Proof.
  unfold Wait. destruct (waited (st_cmd s)) eqn:Hw; [exact Hw|].
  match goal with |- context [Cmd_Wait ?t] =>
    pose proof (Cmd_Wait_cmd t) as Hc; destruct (Cmd_Wait t) as [r s1] end.
  rewrite deferredAfter_waited. simpl in Hc. rewrite Hc. reflexivity.
Qed.

(** C9. A second call of Wait returns the error "exec: Wait was already
    called" and leaves the state as the first call left it: the command,
    the world and the trace are the same, so the platform wait is not
    entered and the after-hook is not invoked again. *)
Theorem Wait_second_call_fails s :
  Wait (Wait s).2 = (Error "exec: Wait was already called", (Wait s).2).
Proof. apply Wait_already, Wait_sets_waited. Qed.

(** *** A command that was not initialised *)

Lemma Start_uninitialised opts s :
  initalised (st_cmd s) = false ->
  Start opts s = (Error "exec: command not initalised", s).
Proof. intros Hi. unfold Start. rewrite Hi. reflexivity. Qed.

Lemma Run_uninitialised opts s :
  initalised (st_cmd s) = false ->
  Run opts s = (Error "exec: command not initalised", s).
Proof.
  intros Hi. unfold Run, andThen. rewrite Start_uninitialised by exact Hi.
  reflexivity.
Qed.

(** C8. On a command that is not initialised (the zero value is one),
    Start, Run and Output return the error "exec: command not
    initalised"; the command and the trace are unchanged, so no process
    creation is attempted.  (Output has made its buffer by then, which
    is all that changes in the world.) *)
Theorem uninitialised_fails opts s :
  initalised (st_cmd s) = false ->
  Start opts s = (Error "exec: command not initalised", s) /\
  Run opts s = (Error "exec: command not initalised", s) /\
  (Output opts s).1.2 = Error "exec: command not initalised" /\
  st_cmd (Output opts s).2 = st_cmd s /\
  st_world (Output opts s).2 = (new_Buffer (st_world s)).2 /\
  st_trace (Output opts s).2 = st_trace s.
Proof.
  intros Hi. split; [|split].
  - apply Start_uninitialised, Hi.
  - apply Run_uninitialised, Hi.
  - unfold Output. destruct (new_Buffer (st_world s)) as [b w].
    rewrite Run_uninitialised by exact Hi. simpl. auto.
Qed.

(** *** Wait and the after-hook *)

(** C3. On a command that has not been waited for, has its embedded
    command and has an after-hook, Wait calls the platform wait and then
    the after-hook, once each and in this order, whatever the platform
    wait returned.  When the platform wait returned nil, Wait returns
    what the hook returned; when it returned an error, Wait returns that
    error and the hook's is dropped. *)
Theorem Wait_runs_after_hook s ec h :
  waited (st_cmd s) = false ->
  Cmd_ (st_cmd s) = Some ec ->
  after (st_cmd s) = Some h ->
  let pw := osexec_Wait ec (st_world s) in
  let ha := h (Some ec) pw.2 in
  st_trace (Wait s).2 = st_trace s ++ [EvProcessWait; EvAfter] /\
  st_world (Wait s).2 = ha.2 /\
  (pw.1 = None -> (Wait s).1 = ha.1.1) /\
  (forall e, pw.1 = Some e -> ha.1.1 <> Panics -> (Wait s).1 = Error e).
Proof.
  intros Hw Hc Ha. unfold Wait. rewrite Hw. unfold Cmd_Wait. simpl.
  rewrite Hc. destruct (osexec_Wait ec (st_world s)) as [e w1]. simpl.
  unfold deferredAfter. simpl. rewrite Ha. unfold callHook. simpl.
  rewrite Hc. destruct (h (Some ec) w1) as [[ra ec'] w2]. simpl.
  rewrite <- app_assoc. split; [reflexivity|]. split; [reflexivity|]. split.
  - intros ->. simpl. destruct ra; reflexivity.
  - intros m -> Hp. simpl. destruct ra; congruence.
Qed.

(** Without an after-hook Wait returns what the platform wait returned. *)
Lemma Wait_without_hook s ec :
  waited (st_cmd s) = false ->
  Cmd_ (st_cmd s) = Some ec ->
  after (st_cmd s) = None ->
  (Wait s).1 = of_error (osexec_Wait ec (st_world s)).1 /\
  st_trace (Wait s).2 = st_trace s ++ [EvProcessWait].
Proof.
  intros Hw Hc Ha. unfold Wait. rewrite Hw. unfold Cmd_Wait. simpl.
  rewrite Hc. destruct (osexec_Wait ec (st_world s)) as [e w1]. simpl.
  unfold deferredAfter. simpl. rewrite Ha. split; reflexivity.
Qed.

(** *** Nothing clears [waited] *)

Lemma andThen_preservesWaited (m k : M outcome) :
  preservesWaited m -> preservesWaited k -> preservesWaited (andThen m k).
Proof.
  intros Hm Hk s Hw. unfold andThen. specialize (Hm s Hw).
  destruct (m s) as [r s1]. simpl in Hm.
  destruct r; simpl; auto.
Qed.

Lemma runOpt_preservesWaited opt :
  keepsWaited opt -> preservesWaited (runOpt opt).
Proof.
  intros Hk s Hw. unfold runOpt. specialize (Hk (st_cmd s) (st_world s) Hw).
  destruct (opt _ _) as [[r c] w]. exact Hk.
Qed.

Lemma applyOptions_preservesWaited opts :
  Forall keepsWaited opts -> preservesWaited (applyOptions opts).
Proof.
  induction 1 as [|opt rest Hopt _ IH]; simpl.
  - intros s Hw. exact Hw.
  - apply andThen_preservesWaited;
      [apply runOpt_preservesWaited, Hopt|exact IH].
Qed.

Lemma applyDefaultOptions_preservesWaited :
  preservesWaited applyDefaultOptions.
Proof.
  intros s Hw. unfold applyDefaultOptions.
  destruct (Cmd_ (st_cmd s)) as [ec|]; [|exact Hw].
  destruct (osexec.Env ec); exact Hw.
Qed.

Lemma runBefore_preservesWaited : preservesWaited runBefore.
Proof.
  intros s Hw. unfold runBefore.
  destruct (before (st_cmd s)) as [h|]; [|exact Hw].
  rewrite callHook_waited. exact Hw.
Qed.

Lemma Cmd_Start_preservesWaited : preservesWaited Cmd_Start.
Proof. intros s Hw. rewrite Cmd_Start_cmd. exact Hw. Qed.

Lemma Start_preservesWaited opts :
  Forall keepsWaited opts -> preservesWaited (Start opts).
Proof.
  intros Hopts s Hw. unfold Start.
  destruct (negb (initalised (st_cmd s))); [exact Hw|].
  revert s Hw. fold (preservesWaited
    (andThen applyDefaultOptions
       (andThen (applyOptions opts) (andThen runBefore Cmd_Start)))).
  auto using andThen_preservesWaited, applyDefaultOptions_preservesWaited,
    applyOptions_preservesWaited, runBefore_preservesWaited,
    Cmd_Start_preservesWaited.
Qed.

Lemma Wait_preservesWaited : preservesWaited Wait.
Proof. intros s _. apply Wait_sets_waited. Qed.

Lemma Run_preservesWaited opts :
  Forall keepsWaited opts -> preservesWaited (Run opts).
Proof.
  intros Hopts. apply andThen_preservesWaited;
    [apply Start_preservesWaited, Hopts|apply Wait_preservesWaited].
Qed.

Lemma deref_keepsWaited c w k : waited (deref c w k).1.2 = waited c.
Proof.
  unfold deref. destruct (Cmd_ c) as [ec|]; [|reflexivity].
  destruct (k ec). reflexivity.
Qed.

Lemma builtin_keepsWaited opt : builtin opt -> keepsWaited opt.
Proof.
  intros [d|r|wr|wr|fn|fn|k v] c w Hw;
    try (unfold Dir, Stdin, Stdout, Stderr, Setenv;
         rewrite deref_keepsWaited; exact Hw).
  - unfold BeforeFunc. destruct (before c); exact Hw.
  - unfold AfterFunc. destruct (after c); exact Hw.
Qed.

Lemma custom_keepsWaited f : keepsWaited (custom f).
Proof.
  intros c w Hw. unfold custom. destruct (f _ _) as [[r ec] w']. exact Hw.
Qed.

Lemma Output_preservesWaited opts :
  Forall keepsWaited opts -> preservesWaited (Output opts).
Proof.
  intros Hopts s Hw. unfold Output.
  destruct (new_Buffer (st_world s)) as [b w].
  match goal with |- context [Run ?o ?t] =>
    pose proof (Run_preservesWaited o) as HR; specialize (HR
      ltac:(constructor; [apply builtin_keepsWaited; constructor|exact Hopts])
      t Hw);
    destruct (Run o t) as [r s1] end.
  exact HR.
Qed.

Lemma call_preservesWaited k s :
  Forall keepsWaited (optionsOf k) ->
  waited (st_cmd s) = true -> waited (st_cmd (call k s)) = true.
Proof.
  destruct k as [opts| |opts|opts]; simpl; intros Hopts Hw.
  - apply Start_preservesWaited; assumption.
  - apply Wait_sets_waited.
  - apply Run_preservesWaited; assumption.
  - apply Output_preservesWaited; assumption.
Qed.

Lemma calls_preservesWaited ks s :
  Forall (fun k => Forall keepsWaited (optionsOf k)) ks ->
  waited (st_cmd s) = true -> waited (st_cmd (calls ks s)) = true.
Proof.
  intros Hks. revert s. induction Hks as [|k ks Hk _ IH]; intros s Hw.
  - exact Hw.
  - simpl. apply IH, call_preservesWaited; assumption.
Qed.

(** C10. Wait sets [waited] before it calls the platform wait (the
    platform wait and the after-hook run on the command with the flag
    set) and nothing clears it.  After a call of Wait, whatever it
    returned (an error of the platform wait, a panic on a nil embedded
    pointer), the flag is set; it is still set after any further calls of
    Start, Wait, Run and Output with options that do not reach the
    unexported field; and a call of Wait then returns "exec: Wait was
    already called" without a change of state. *)
Theorem waited_is_never_cleared s ks :
  Forall (fun k => Forall keepsWaited (optionsOf k)) ks ->
  let s1 := (Wait s).2 in
  let s2 := calls ks s1 in
  (waited (st_cmd s) = false ->
   Wait s =
     let '(r, t) :=
       Cmd_Wait (mkState (set_waited true (st_cmd s)) (st_world s)
                   (st_trace s)) in
     deferredAfter r t) /\
  waited (st_cmd s1) = true /\
  waited (st_cmd s2) = true /\
  Wait s2 = (Error "exec: Wait was already called", s2).
Proof.
  intros Hks s1 s2.
  assert (H1 : waited (st_cmd s1) = true) by apply Wait_sets_waited.
  assert (H2 : waited (st_cmd s2) = true)
    by (apply calls_preservesWaited; assumption).
  split; [|auto using Wait_already].
  intros Hw. unfold Wait. rewrite Hw. reflexivity.
Qed.

(** *** Start: defaults, options in order, before-hook, process *)

Lemma runOpt_trace opt s : st_trace (runOpt opt s).2 = st_trace s.
Proof. unfold runOpt. destruct (opt _ _) as [[r c] w]. reflexivity. Qed.

Lemma appliedInOrder_applyOptions opts s s1 :
  appliedInOrder opts s s1 -> applyOptions opts s = (Nil, s1).
Proof.
  induction 1 as [|opt rest s s1 s2 Hopt _ IH]; [reflexivity|].
  simpl. unfold andThen. rewrite Hopt. exact IH.
Qed.

Lemma applyOptions_appliedInOrder opts s s1 :
  applyOptions opts s = (Nil, s1) -> appliedInOrder opts s s1.
Proof.
  revert s. induction opts as [|opt rest IH]; simpl; intros s Hs.
  - injection Hs as <-. constructor.
  - unfold andThen in Hs. destruct (runOpt opt s) as [r s'] eqn:Hopt.
    destruct r; try discriminate.
    econstructor; [exact Hopt|]. apply IH, Hs.
Qed.

Lemma appliedInOrder_trace opts s s1 :
  appliedInOrder opts s s1 -> st_trace s1 = st_trace s.
Proof.
  induction 1 as [|opt rest s s1 s2 Hopt _ IH]; [reflexivity|].
  rewrite IH. pose proof (runOpt_trace opt s) as Ht.
  rewrite Hopt in Ht. exact Ht.
Qed.

Lemma applyOptions_stops pre opt post s s1 r s2 :
  appliedInOrder pre s s1 ->
  runOpt opt s1 = (r, s2) ->
  r <> Nil ->
  applyOptions (pre ++ opt :: post) s = (r, s2).
Proof.
  induction 1 as [|o rest s s1 s' Ho _ IH]; simpl; intros Hopt Hr.
  - unfold andThen. rewrite Hopt. destruct r; congruence.
  - unfold andThen at 1. rewrite Ho. apply IH; assumption.
Qed.

Lemma applyOptions_trace opts s :
  st_trace (applyOptions opts s).2 = st_trace s.
Proof.
  revert s. induction opts as [|opt rest IH]; intros s; [reflexivity|].
  simpl. unfold andThen. pose proof (runOpt_trace opt s) as Ht.
  destruct (runOpt opt s) as [r s1]. simpl in Ht.
  destruct r; simpl; try exact Ht. rewrite IH. exact Ht.
Qed.

Lemma applyDefaultOptions_ok s ec :
  Cmd_ (st_cmd s) = Some ec ->
  (applyDefaultOptions s).1 = Nil /\
  processStarts (st_trace (applyDefaultOptions s).2) =
    processStarts (st_trace s).
Proof.
  intros Hc. unfold applyDefaultOptions. rewrite Hc.
  destruct (osexec.Env ec); simpl; [auto|]. split; [reflexivity|].
  unfold processStarts. rewrite filter_app, length_app. simpl. lia.
Qed.

Lemma processStarts_snoc tr ev :
  isProcessStart ev = false ->
  processStarts (tr ++ [ev]) = processStarts tr.
Proof.
  intros Hev. unfold processStarts. rewrite filter_app, length_app.
  rewrite filter_cons_False, filter_nil by congruence. simpl. lia.
Qed.

Lemma Start_unfold opts s ec :
  initalised (st_cmd s) = true ->
  Cmd_ (st_cmd s) = Some ec ->
  Start opts s =
    andThen (applyOptions opts) (andThen runBefore Cmd_Start)
      (applyDefaultOptions s).2.
Proof.
  intros Hi Hc. destruct (applyDefaultOptions_ok s ec Hc) as [Hd _].
  unfold Start. rewrite Hi. simpl. unfold andThen at 1.
  destruct (applyDefaultOptions s) as [r t]. simpl in Hd. subst r.
  reflexivity.
Qed.

(** Every run of the options and the before-hook ends in one of the
    two ways: short of process creation, or at it. *)
Lemma stops_or_reaches_process opts s0 :
  (exists r s', stopsBeforeProcess opts s0 r s') \/
  (exists s1 s2, appliedInOrder opts s0 s1 /\ runBefore s1 = (Nil, s2)).
Proof.
  assert (Hopts : (exists pre opt post s1 r s2,
             opts = pre ++ opt :: post /\ appliedInOrder pre s0 s1 /\
             runOpt opt s1 = (r, s2) /\ r <> Nil) \/
          (exists s1, appliedInOrder opts s0 s1)).
  { revert s0. induction opts as [|opt rest IH]; intros s0.
    - right. eexists. constructor.
    - destruct (runOpt opt s0) as [r s1] eqn:Hopt.
      destruct (decide (r = Nil)) as [->|Hr].
      + destruct (IH s1) as [(pre & o & post & s2 & r & s3 & -> & Hpre & Ho & Hr)
                            |[s2 Hall]].
        * left. exists (opt :: pre), o, post, s2, r, s3.
          repeat split; try assumption. econstructor; eassumption.
        * right. exists s2. econstructor; eassumption.
      + left. exists [], opt, rest, s0, r, s1.
        repeat split; try assumption. constructor. }
  destruct Hopts as [(pre & o & post & s1 & r & s2 & Heq & Hpre & Ho & Hr)
                    |[s1 Hall]].
  - left. exists r, s2. eapply stops_at_option; eassumption.
  - destruct (runBefore s1) as [r s2] eqn:Hb.
    destruct (decide (r = Nil)) as [->|Hr].
    + right. exists s1, s2. auto.
    + left. exists r, s2. unfold runBefore in Hb.
      destruct (before (st_cmd s1)) as [h|] eqn:Hh.
      * eapply stops_at_before; eassumption.
      * congruence.
Qed.

(** C5. On an initialised command (with its embedded command), Start
    runs the default options first and applies the caller's options to
    the state they leave, in the order given.  If an option does not
    return nil after the options before it were applied, or if all
    options were applied and the before-hook does not return nil, Start
    returns just that, in the state just then: later options are not
    applied, and the process-creation primitive is not invoked.  If all
    options and the before-hook (if there is one) return nil, Start is
    the process-creation primitive in the state they leave. *)
Theorem Start_applies_options_in_order opts s ec :
  initalised (st_cmd s) = true ->
  Cmd_ (st_cmd s) = Some ec ->
  let s0 := (applyDefaultOptions s).2 in
  (forall r s',
      stopsBeforeProcess opts s0 r s' ->
      Start opts s = (r, s') /\
      processStarts (st_trace s') = processStarts (st_trace s)) /\
  (forall s1 s2,
      appliedInOrder opts s0 s1 ->
      runBefore s1 = (Nil, s2) ->
      Start opts s = Cmd_Start s2).
Proof.
  intros Hi Hc s0.
  destruct (applyDefaultOptions_ok s ec Hc) as [_ Hd'].
  pose proof (Start_unfold opts s ec Hi Hc) as HS.
  fold s0 in HS, Hd'. split.
  - intros r s' Hstop. rewrite HS.
    destruct Hstop as [pre opt post s1 r s2 -> Hpre Hopt Hr
                      |h s1 r s2 Hall Hh Hcall Hr].
    + unfold andThen at 1.
      rewrite (applyOptions_stops pre opt post s0 s1 r s2) by assumption.
      split; [destruct r; congruence|].
      pose proof (runOpt_trace opt s1) as Ht. rewrite Hopt in Ht.
      simpl in Ht. rewrite Ht, (appliedInOrder_trace _ _ _ Hpre). exact Hd'.
    + unfold andThen at 1. rewrite (appliedInOrder_applyOptions _ _ _ Hall).
      unfold andThen, runBefore. rewrite Hh, Hcall.
      split; [destruct r; congruence|].
      pose proof (callHook_trace EvBefore h s1) as Ht. rewrite Hcall in Ht.
      simpl in Ht. rewrite Ht, processStarts_snoc by reflexivity.
      rewrite (appliedInOrder_trace _ _ _ Hall). exact Hd'.
  - intros s1 s2 Hall Hb. rewrite HS. unfold andThen at 1.
    rewrite (appliedInOrder_applyOptions _ _ _ Hall).
    unfold andThen. rewrite Hb. reflexivity.
Qed.

(** *** Write-once fields *)

Lemma set_Cmd__same c ec : Cmd_ c = Some ec -> set_Cmd_ (Some ec) c = c.
Proof. destruct c; simpl; intros ->; reflexivity. Qed.

Lemma Stdin_writeOnce c w ec v r2 :
  Cmd_ c = Some ec ->
  writeOnce (Stdin (Some v)) (Stdin r2) "exec: Stdin already set"
    (fun c => Cmd_ c ≫= osexec.Stdin) v c w.
Proof.
  intros Hc. unfold writeOnce, Stdin, deref. rewrite Hc. simpl.
  destruct (osexec.Stdin ec) as [old|] eqn:Hf; simpl.
  - rewrite Hf. simpl. rewrite !(set_Cmd__same c ec Hc).
    split; [reflexivity|]. split; [discriminate|auto].
  - split; [reflexivity|]. split; [auto|congruence].
Qed.

Lemma Stdout_writeOnce c w ec v r2 :
  Cmd_ c = Some ec ->
  writeOnce (Stdout (Some v)) (Stdout r2) "exec: Stdout already set"
    (fun c => Cmd_ c ≫= osexec.Stdout) v c w.
Proof.
  intros Hc. unfold writeOnce, Stdout, deref. rewrite Hc. simpl.
  destruct (osexec.Stdout ec) as [old|] eqn:Hf; simpl.
  - rewrite Hf. simpl. rewrite !(set_Cmd__same c ec Hc).
    split; [reflexivity|]. split; [discriminate|auto].
  - split; [reflexivity|]. split; [auto|congruence].
Qed.

Lemma Stderr_writeOnce c w ec v r2 :
  Cmd_ c = Some ec ->
  writeOnce (Stderr (Some v)) (Stderr r2) "exec: Stderr already set"
    (fun c => Cmd_ c ≫= osexec.Stderr) v c w.
Proof.
  intros Hc. unfold writeOnce, Stderr, deref. rewrite Hc. simpl.
  destruct (osexec.Stderr ec) as [old|] eqn:Hf; simpl.
  - rewrite Hf. simpl. rewrite !(set_Cmd__same c ec Hc).
    split; [reflexivity|]. split; [discriminate|auto].
  - split; [reflexivity|]. split; [auto|congruence].
Qed.

Lemma BeforeFunc_writeOnce c w f g :
  writeOnce (BeforeFunc (Some f)) (BeforeFunc g)
    "exec: BeforeFunc already set" before f c w.
Proof.
  unfold writeOnce, BeforeFunc.
  destruct (before c) as [old|] eqn:Hf; simpl.
  - rewrite Hf. split; [reflexivity|]. split; [discriminate|auto].
  - split; [reflexivity|]. split; [auto|congruence].
Qed.

Lemma AfterFunc_writeOnce c w f g :
  writeOnce (AfterFunc (Some f)) (AfterFunc g)
    "exec: AfterFunc already set" after f c w.
Proof.
  unfold writeOnce, AfterFunc.
  destruct (after c) as [old|] eqn:Hf; simpl.
  - rewrite Hf. split; [reflexivity|]. split; [discriminate|auto].
  - split; [reflexivity|]. split; [auto|congruence].
Qed.

(** C6 (amended: the first application is with a value that is not nil).
    On a command with its embedded command, each of the stream options
    Stdin, Stdout and Stderr, applied with a stream and then applied
    again, fails the second time with its "already set" error and changes
    nothing, so the stream set first stays; the same holds of BeforeFunc
    and AfterFunc applied with a function and the hook registered
    first. *)
Theorem fields_are_write_once c w ec (v : Stream) (r2 : option Stream)
    (f : Hook) (g : option Hook) :
  Cmd_ c = Some ec ->
  writeOnce (Stdin (Some v)) (Stdin r2) "exec: Stdin already set"
    (fun c => Cmd_ c ≫= osexec.Stdin) v c w /\
  writeOnce (Stdout (Some v)) (Stdout r2) "exec: Stdout already set"
    (fun c => Cmd_ c ≫= osexec.Stdout) v c w /\
  writeOnce (Stderr (Some v)) (Stderr r2) "exec: Stderr already set"
    (fun c => Cmd_ c ≫= osexec.Stderr) v c w /\
  writeOnce (BeforeFunc (Some f)) (BeforeFunc g)
    "exec: BeforeFunc already set" before f c w /\
  writeOnce (AfterFunc (Some f)) (AfterFunc g)
    "exec: AfterFunc already set" after f c w.
Proof.
  intros Hc.
  split; [exact (Stdin_writeOnce c w ec v r2 Hc)|].
  split; [exact (Stdout_writeOnce c w ec v r2 Hc)|].
  split; [exact (Stderr_writeOnce c w ec v r2 Hc)|].
  split; [apply BeforeFunc_writeOnce|apply AfterFunc_writeOnce].
Qed.

(** *** Output and a Stdout option of the caller *)

Lemma builtin_keeps_Stdout opt c w :
  builtin opt ->
  stdoutSet c ->
  ((opt c w).1.1 = Nil /\ stdoutSet (opt c w).1.2) \/
  (exists e, (opt c w).1.1 = Error e /\ alreadySet e).
Proof.
  unfold stdoutSet, alreadySet. intros Hb [v Hv].
  destruct (Cmd_ c) as [ec|] eqn:Hc; [simpl in Hv|discriminate].
  destruct Hb as [d|r|wr|wr|fn|fn|k val].
  - left. unfold Dir, deref. rewrite Hc. simpl. rewrite Hv. eauto.
  - unfold Stdin, deref. rewrite Hc.
    destruct (osexec.Stdin ec); simpl.
    + right. eexists. split; [reflexivity|repeat constructor].
    + left. rewrite Hv. eauto.
  - right. unfold Stdout, deref. rewrite Hc, Hv. simpl.
    eexists. split; [reflexivity|repeat constructor].
  - unfold Stderr, deref. rewrite Hc.
    destruct (osexec.Stderr ec); simpl.
    + right. eexists. split; [reflexivity|repeat constructor].
    + left. rewrite Hv. eauto.
  - unfold BeforeFunc. destruct (before c); simpl.
    + right. eexists. split; [reflexivity|repeat constructor].
    + left. rewrite Hc. simpl. rewrite Hv. eauto.
  - unfold AfterFunc. destruct (after c); simpl.
    + right. eexists. split; [reflexivity|repeat constructor].
    + left. rewrite Hc. simpl. rewrite Hv. eauto.
  - left. unfold Setenv, deref. rewrite Hc.
    destruct (setenvLoop _ _ _); simpl; rewrite Hv; eauto.
Qed.

Lemma applyOptions_Stdout_conflict pre wr post s :
  Forall builtin pre ->
  stdoutSet (st_cmd s) ->
  exists e, (applyOptions (pre ++ Stdout wr :: post) s).1 = Error e /\
            alreadySet e /\
            (Forall neverFails pre -> e = "exec: Stdout already set").
Proof.
  intros Hpre. revert s. induction Hpre as [|opt pre Hopt _ IH]; intros s Hs.
  - simpl. unfold andThen, runOpt, Stdout, deref.
    destruct Hs as [v Hv].
    destruct (Cmd_ (st_cmd s)) as [ec|]; [simpl in Hv|discriminate].
    rewrite Hv. simpl. eexists. split; [reflexivity|].
    split; [unfold alreadySet; repeat constructor|reflexivity].
  - simpl. unfold andThen at 1. unfold runOpt.
    pose proof (builtin_keeps_Stdout opt (st_cmd s) (st_world s) Hopt Hs)
      as Hk.
    destruct (opt (st_cmd s) (st_world s)) as [[r c] w] eqn:Ho.
    simpl in Hk. destruct Hk as [[-> Hset]|(e & -> & Hset)].
    + destruct (IH (mkState c w (st_trace s)) Hset)
        as (e & He & Hset' & Hexact).
      exists e. split; [exact He|]. split; [exact Hset'|].
      intros Hnf. apply Hexact. inversion Hnf; assumption.
    + exists e. split; [reflexivity|]. split; [exact Hset|].
      intros Hnf. inversion Hnf as [|? ? Hnf1 _]; subst.
      assert (Hc : Cmd_ (st_cmd s) <> None).
      { destruct Hs as [v Hv]. destruct (Cmd_ (st_cmd s)); discriminate. }
      specialize (Hnf1 _ (st_world s) Hc). rewrite Ho in Hnf1.
      discriminate.
Qed.

Lemma applyDefaultOptions_spec s ec :
  Cmd_ (st_cmd s) = Some ec ->
  applyDefaultOptions s =
    (Nil, mkState (set_Cmd_ (Some (withEnviron (st_world s) ec)) (st_cmd s))
                  (st_world s) (st_trace s ++ defaultsTrace ec)).
Proof.
  intros Hc. unfold applyDefaultOptions, withEnviron, defaultsTrace.
  rewrite Hc. destruct (osexec.Env ec); [|reflexivity].
  rewrite (set_Cmd__same _ _ Hc), app_nil_r. destruct s; reflexivity.
Qed.

Lemma Start_Stdout_conflict s ec v pre wr post :
  initalised (st_cmd s) = true ->
  Cmd_ (st_cmd s) = Some ec ->
  Forall builtin pre ->
  exists e s',
    Start (Stdout (Some v) :: pre ++ Stdout wr :: post) s = (Error e, s') /\
    alreadySet e /\
    (Forall neverFails pre -> e = "exec: Stdout already set") /\
    st_trace s' = st_trace s ++ defaultsTrace ec.
Proof.
  intros Hi Hc Hpre. unfold Start. rewrite Hi. simpl.
  unfold andThen at 1. rewrite (applyDefaultOptions_spec s ec Hc).
  set (s0 := mkState _ _ _).
  unfold andThen at 1. unfold andThen at 1.
  unfold runOpt, Stdout at 1, deref. simpl.
  destruct (osexec.Stdout (withEnviron (st_world s) ec)) as [old|] eqn:Hold;
    simpl.
  - eexists _, _. split; [reflexivity|].
    split; [unfold alreadySet; repeat constructor|]. auto.
  - match goal with |- context [applyOptions _ ?t] =>
      destruct (applyOptions_Stdout_conflict pre wr post t Hpre)
        as (e & He & Hset & Hexact);
      [unfold stdoutSet; simpl; eauto|];
      pose proof (applyOptions_trace (pre ++ Stdout wr :: post) t) as Ht;
      destruct (applyOptions (pre ++ Stdout wr :: post) t) as [r s1] eqn:Ha
    end.
    simpl in He, Ht. subst r. exists e, s1.
    split; [reflexivity|]. split; [exact Hset|]. split; [exact Hexact|].
    exact Ht.
Qed.

Lemma plain_neverFails opt : plain opt -> neverFails opt.
Proof.
  intros [d|k v] c w Hc; destruct (Cmd_ c) as [ec|] eqn:He; try congruence.
  - unfold Dir, deref. rewrite He. reflexivity.
  - unfold Setenv, deref. rewrite He.
    destruct (setenvLoop _ _ _); reflexivity.
Qed.

(** C2. Output puts its own Stdout option, bound to a new buffer, before
    the caller's options.  On an initialised command, when the caller's
    options hold a Stdout option (after options of this package),
    Output returns an "already set" configuration error, that of Stdout
    when the options before it cannot fail; the platform is not reached.
    And for all options, Output returns the bytes of its buffer in the
    final world together with what Run returned, whatever that is. *)
Theorem Output_rejects_caller_Stdout s ec pre wr post :
  initalised (st_cmd s) = true ->
  Cmd_ (st_cmd s) = Some ec ->
  Forall builtin pre ->
  let out := Output (pre ++ Stdout wr :: post) s in
  (exists e, out.1.2 = Error e /\ alreadySet e /\
             (Forall neverFails pre -> e = "exec: Stdout already set")) /\
  st_trace out.2 = st_trace s ++ defaultsTrace ec /\
  (forall opts s',
      let b := (new_Buffer (st_world s')).1 in
      let run := Run (Stdout (Some (bytes_Buffer b)) :: opts)
                   (mkState (st_cmd s') (new_Buffer (st_world s')).2
                      (st_trace s')) in
      Output opts s' = ((Buffer_Bytes b (st_world run.2), run.1), run.2)).
Proof.
  intros Hi Hc Hpre out. split; [|split].
  - subst out. unfold Output. destruct (new_Buffer (st_world s)) as [b w].
    simpl. unfold Run, andThen.
    destruct (Start_Stdout_conflict (mkState (st_cmd s) w (st_trace s)) ec
                (bytes_Buffer b) pre wr post Hi Hc Hpre)
      as (e & s' & -> & Hset & Hexact & _). simpl. eauto.
  - subst out. unfold Output. destruct (new_Buffer (st_world s)) as [b w].
    simpl. unfold Run, andThen.
    destruct (Start_Stdout_conflict (mkState (st_cmd s) w (st_trace s)) ec
                (bytes_Buffer b) pre wr post Hi Hc Hpre)
      as (e & s' & -> & _ & _ & Ht). exact Ht.
  - intros opts s' b run. subst b run. unfold Output.
    destruct (new_Buffer (st_world s')) as [b w]. simpl.
    destruct (Run _ _) as [r s1]. reflexivity.
Qed.

(** *** System *)

(** The state System's command is in when the default streams have been
    bound. *)
Lemma System_conflict_state command w :
  applyOptions [Stdin (Some os_Stdin); Stdout (Some os_Stdout);
                Stderr (Some os_Stderr)]
    (applyDefaultOptions
       (mkState (Command "/bin/sh" (["-c"] ++ Fields command)) w [])).2 =
  (Nil, mkState (set_Cmd_ (Some (shellSpec command w))
                   (Command "/bin/sh" (["-c"] ++ Fields command)))
          w [EvEnviron]).
Proof. reflexivity. Qed.

(** With no options of the caller, System hands the shell, "-c" and the
    fields of the command to the platform, with the invoking process's
    environment and standard streams, and waits when the process was
    created. *)
Lemma System_trace command w :
  st_trace (System command [] w).2 =
    [EvEnviron; EvProcessStart (shellSpec command w)] ++
    match (osexec_Start (shellSpec command w) w).1 with
    | None => [EvProcessWait]
    | Some _ => []
    end.
Proof.
  unfold System, Run. unfold andThen at 1.
  rewrite (Start_unfold _ (mkState (Command "/bin/sh" _) w [])
             (osexec.Command "/bin/sh" _) eq_refl eq_refl).
  rewrite app_nil_r.
  unfold andThen at 1. rewrite System_conflict_state.
  unfold andThen at 1. unfold runBefore, Cmd_Start.
  cbn [st_cmd st_world st_trace before Cmd_ set_Cmd_ Command].
  destruct (osexec_Start (shellSpec command w) w) as [[e|] w1];
    cbn [of_error fst snd]; [reflexivity|].
  unfold Wait, Cmd_Wait, deferredAfter.
  cbn [st_cmd st_world st_trace waited after Cmd_ set_Cmd_ set_waited
       Command].
  destruct (osexec_Wait _ w1). reflexivity.
Qed.

(** C1 (the code at the inputs where it departs from the claim).  The
    default streams are bound before the caller's options are applied,
    and the stream options are write-once: a stream option of the
    caller right after the defaults does not override the binding.
    System returns the "already set" error of that option, the streams
    of the command are still the invoking process's own, and no process
    is created. *)
Theorem System_stream_option_conflicts command wr post w :
  let s := mkState (set_Cmd_ (Some (shellSpec command w))
                      (Command "/bin/sh" (["-c"] ++ Fields command)))
             w [EvEnviron] in
  System command (Stdin wr :: post) w =
    (Error "exec: Stdin already set", s) /\
  System command (Stdout wr :: post) w =
    (Error "exec: Stdout already set", s) /\
  System command (Stderr wr :: post) w =
    (Error "exec: Stderr already set", s).
Proof. repeat split. Qed.

(** *** Setenv and the environment *)

Lemma prefix_app (key val : string) : String.prefix key (key +:+ val) = true.
Proof.
  induction key as [|a key IH]; simpl.
  - destruct val; reflexivity.
  - destruct (Ascii.ascii_dec a a); [exact IH|congruence].
Qed.

Lemma setenvLoop_cons key val e env :
  setenvLoop key val (e :: env) =
    if String.prefix key e then Some ((key +:+ val) :: env)
    else cons e <$> setenvLoop key val env.
Proof.
  unfold setenvLoop. simpl.
  destruct (decide (String.prefix key e = true)) as [->|Hn]; [reflexivity|].
  apply not_true_is_false in Hn. rewrite Hn.
  destruct (list_find _ env) as [[i x]|]; reflexivity.
Qed.

Lemma envSet_nil key val : envSet key val [] = [(key +:+ "=") +:+ val].
Proof. reflexivity. Qed.

Lemma envSet_cons key val e env :
  envSet key val (e :: env) =
    if String.prefix (key +:+ "=") e then ((key +:+ "=") +:+ val) :: env
    else e :: envSet key val env.
Proof.
  unfold envSet. rewrite setenvLoop_cons.
  destruct (String.prefix (key +:+ "=") e); [reflexivity|].
  destruct (setenvLoop _ _ env); reflexivity.
Qed.

(** The entries for the key after [Setenv]: the first one is replaced,
    or one is added when there was none; the others stay. *)
Lemma entriesFor_envSet key val env :
  entriesFor key (envSet key val env) =
    ((key +:+ "=") +:+ val) :: tail (entriesFor key env).
Proof.
  unfold entriesFor. induction env as [|e env IH].
  - rewrite envSet_nil. rewrite filter_cons_True by apply prefix_app.
    reflexivity.
  - rewrite envSet_cons.
    destruct (String.prefix (key +:+ "=") e) eqn:He.
    + rewrite filter_cons_True by apply prefix_app.
      rewrite (filter_cons_True _ e) by exact He. reflexivity.
    + rewrite !filter_cons_False by congruence. exact IH.
Qed.

(** Setting the key twice is setting it to the second value. *)
Lemma envSet_envSet key v1 v2 env :
  envSet key v2 (envSet key v1 env) = envSet key v2 env.
Proof.
  induction env as [|e env IH].
  - rewrite envSet_nil, envSet_cons, prefix_app. reflexivity.
  - rewrite !envSet_cons.
    destruct (String.prefix (key +:+ "=") e) eqn:He.
    + rewrite envSet_cons, prefix_app. reflexivity.
    + rewrite envSet_cons, He, IH. reflexivity.
Qed.

(** In place or at the end. *)
Lemma envSet_shape key val env :
  match entriesFor key env with
  | [] => envSet key val env = env ++ [(key +:+ "=") +:+ val]
  | old :: _ =>
      exists i, env !! i = Some old /\
                envSet key val env = <[i := (key +:+ "=") +:+ val]> env
  end.
Proof.
  unfold entriesFor. induction env as [|e env IH]; [reflexivity|].
  rewrite envSet_cons. destruct (String.prefix (key +:+ "=") e) eqn:He.
  - rewrite filter_cons_True by exact He. exists 0. split; reflexivity.
  - rewrite filter_cons_False by congruence.
    destruct (filter _ env) as [|old rest].
    + simpl. rewrite IH. reflexivity.
    + destruct IH as (i & Hi & ->). exists (S i). split; [exact Hi|reflexivity].
Qed.

Lemma Setenv_spec key val c w ec :
  Cmd_ c = Some ec ->
  Setenv key val c w =
    (Nil,
     set_Cmd_ (Some (osexec.set_Env
                       (Some (envSet key val (default [] (osexec.Env ec))))
                       ec)) c,
     w).
Proof.
  intros Hc. unfold Setenv, deref, envSet. rewrite Hc.
  destruct (setenvLoop _ _ _); reflexivity.
Qed.

Lemma applyDefaultOptions_idempotent s :
  applyDefaultOptions (applyDefaultOptions s).2 =
    ((applyDefaultOptions s).1, (applyDefaultOptions s).2).
Proof.
  unfold applyDefaultOptions.
  destruct (Cmd_ (st_cmd s)) as [ec|] eqn:Hc; simpl; [|rewrite Hc; reflexivity].
  destruct (osexec.Env ec) eqn:He; simpl; [rewrite Hc, He|]; reflexivity.
Qed.

Lemma withEnviron_Env w ec :
  osexec.Env (withEnviron w ec) =
    Some (default (os_Environ w) (osexec.Env ec)).
Proof.
  unfold withEnviron.
  destruct (osexec.Env ec) eqn:He; [rewrite He|]; reflexivity.
Qed.

Lemma set_Env_withEnviron v w ec :
  osexec.set_Env v (withEnviron w ec) = osexec.set_Env v ec.
Proof. unfold withEnviron. destruct (osexec.Env ec); reflexivity. Qed.

Lemma Setenv_twice_applied s ec K v1 v2 :
  Cmd_ (st_cmd s) = Some ec ->
  let E := default (os_Environ (st_world s)) (osexec.Env ec) in
  appliedInOrder [Setenv K v1; Setenv K v2] (applyDefaultOptions s).2
    (mkState
       (set_Cmd_ (Some (osexec.set_Env (Some (envSet K v2 E)) ec)) (st_cmd s))
       (st_world s) (st_trace s ++ defaultsTrace ec)).
Proof.
  intros Hc E. apply applyOptions_appliedInOrder.
  rewrite (applyDefaultOptions_spec s ec Hc). cbn [snd applyOptions].
  unfold andThen at 1. unfold runOpt at 1. cbn [st_cmd st_world st_trace].
  erewrite Setenv_spec by reflexivity. rewrite withEnviron_Env.
  change (default [] (Some E)) with E. rewrite set_Env_withEnviron.
  unfold andThen at 1. unfold runOpt at 1. cbn [st_cmd st_world st_trace].
  erewrite Setenv_spec by reflexivity.
  change (default [] (osexec.Env (osexec.set_Env (Some ?x) ec))) with x.
  rewrite envSet_envSet. reflexivity.
Qed.

(** C7 (amended: the environment holds at most one entry for the key).
    Start materialises the environment in its default pass, before the
    options: from the invoking process's environment when the command has
    none yet (one call of os.Environ), and not at all when it has one; a
    second default pass changes nothing.  Setenv K v1 and then Setenv K
    v2, applied in this order to the materialised environment, leave the
    entry K=v2 as the only one for K: written over the entry that was
    there, where it stood, or added at the end when there was none.
    Start goes on from there, and without a before-hook the process is
    created with this environment. *)
Theorem Setenv_twice_one_entry s ec K v1 v2 :
  initalised (st_cmd s) = true ->
  Cmd_ (st_cmd s) = Some ec ->
  let E := default (os_Environ (st_world s)) (osexec.Env ec) in
  length (entriesFor K E) <= 1 ->
  exists E',
    let s1 :=
      mkState (set_Cmd_ (Some (osexec.set_Env (Some E') ec)) (st_cmd s))
        (st_world s) (st_trace s ++ defaultsTrace ec) in
    appliedInOrder [Setenv K v1; Setenv K v2] (applyDefaultOptions s).2 s1 /\
    Start [Setenv K v1; Setenv K v2] s = andThen runBefore Cmd_Start s1 /\
    (before (st_cmd s) = None ->
     st_trace (Start [Setenv K v1; Setenv K v2] s).2 =
       st_trace s ++ defaultsTrace ec ++
       [EvProcessStart (osexec.set_Env (Some E') ec)]) /\
    entriesFor K E' = [(K +:+ "=") +:+ v2] /\
    match entriesFor K E with
    | [] => E' = E ++ [(K +:+ "=") +:+ v2]
    | old :: _ =>
        exists i, E !! i = Some old /\ E' = <[i := (K +:+ "=") +:+ v2]> E
    end /\
    applyDefaultOptions (applyDefaultOptions s).2 =
      (Nil, (applyDefaultOptions s).2).
Proof.
  intros Hi Hc E Hone. exists (envSet K v2 E).
  pose proof (Setenv_twice_applied s ec K v1 v2 Hc) as Happ.
  cbn zeta in Happ. fold E in Happ.
  assert (HS : Start [Setenv K v1; Setenv K v2] s =
                 andThen runBefore Cmd_Start
                   (mkState
                      (set_Cmd_ (Some (osexec.set_Env (Some (envSet K v2 E)) ec))
                         (st_cmd s))
                      (st_world s) (st_trace s ++ defaultsTrace ec))).
  { rewrite (Start_unfold _ s ec Hi Hc). unfold andThen at 1.
    rewrite (appliedInOrder_applyOptions _ _ _ Happ). reflexivity. }
  cbn zeta. split; [exact Happ|]. split; [exact HS|].
  split; [|split; [|split]].
  - intros Hb. rewrite HS. unfold andThen, runBefore, Cmd_Start.
    cbn [st_cmd st_world st_trace before set_Cmd_ Cmd_]. rewrite Hb.
    cbn [st_cmd st_world st_trace before set_Cmd_ Cmd_].
    destruct (osexec_Start _ _) as [e w1]. cbn [snd st_trace].
    rewrite <- app_assoc. reflexivity.
  - rewrite entriesFor_envSet.
    destruct (entriesFor K E) as [|old [|]]; simpl in *; [reflexivity..|lia].
  - apply envSet_shape.
  - rewrite applyDefaultOptions_idempotent.
    rewrite (applyDefaultOptions_spec s ec Hc). reflexivity.
Qed.

Lemma applyOptions_app pre post s :
  applyOptions (pre ++ post) s =
    andThen (applyOptions pre) (applyOptions post) s.
Proof.
  revert s. induction pre as [|opt pre IH]; intros s; [reflexivity|].
  cbn [app applyOptions]. unfold andThen.
  destruct (runOpt opt s) as [r s1]. destruct r; try reflexivity.
  rewrite IH. reflexivity.
Qed.

Lemma applyOptions_plain opts : forall c w tr ec,
  Forall plain opts ->
  Cmd_ c = Some ec ->
  exists ec',
    applyOptions opts (mkState c w tr) =
      (Nil, mkState (set_Cmd_ (Some ec') c) w tr) /\
    osexec.Path ec' = osexec.Path ec /\
    osexec.Args ec' = osexec.Args ec.
Proof.
  induction opts as [|opt opts IH]; intros c w tr ec Hopts Hc.
  - exists ec. rewrite (set_Cmd__same c ec Hc). auto.
  - inversion Hopts as [|? ? Hopt Hrest]; subst.
    cbn [applyOptions]. unfold andThen, runOpt. cbn [st_cmd st_world st_trace].
    destruct Hopt as [d|k v].
    + unfold Dir, deref. rewrite Hc.
      destruct (IH (set_Cmd_ (Some (osexec.set_Dir d ec)) c) w tr
                  (osexec.set_Dir d ec) Hrest eq_refl)
        as (ec' & -> & HP & HA).
      exists ec'. auto.
    + rewrite (Setenv_spec k v c w ec Hc).
      match goal with |- context [set_Cmd_ (Some ?e) c] =>
        destruct (IH (set_Cmd_ (Some e) c) w tr e Hrest eq_refl)
          as (ec' & -> & HP & HA) end.
      exists ec'. auto.
Qed.

(** C4. System splits the command with strings.Fields and creates the
    process of the shell "/bin/sh" with the arguments "-c" and then
    every field, in order (after the name of the shell itself, as
    os/exec has it).  This holds without options and with options that
    write the directory or the environment.  The fields are the
    stretches between white space: none is empty, none holds white
    space, and quotes mean nothing, so that fields joined by single
    spaces are the arguments handed over. *)
Theorem System_splits_on_whitespace command w opts :
  Forall plain opts ->
  (exists spec tr,
      st_trace (System command opts w).2 =
        EvEnviron :: EvProcessStart spec :: tr /\
      osexec.Path spec = "/bin/sh" /\
      osexec.Args spec = "/bin/sh" :: "-c" :: Fields command) /\
  Forall isField (Fields command) /\
  (forall ts, Forall isField ts -> command = String.concat " " ts ->
              Fields command = ts).
Proof.
  intros Hopts. split; [|split].
  - unfold System, Run. unfold andThen at 1.
    rewrite (Start_unfold _ (mkState (Command "/bin/sh" _) w [])
               (osexec.Command "/bin/sh" _) eq_refl eq_refl).
    unfold andThen at 1. rewrite applyOptions_app. unfold andThen at 1.
    rewrite System_conflict_state.
    destruct (applyOptions_plain opts
                (set_Cmd_ (Some (shellSpec command w))
                   (Command "/bin/sh" (["-c"] ++ Fields command)))
                w [EvEnviron] (shellSpec command w) Hopts eq_refl)
      as (ec' & -> & HP & HA).
    unfold andThen at 1. unfold runBefore, Cmd_Start.
    cbn [st_cmd st_world st_trace before Cmd_ set_Cmd_ Command].
    exists ec'.
    destruct (osexec_Start ec' w) as [[e|] w1]; cbn [of_error fst snd].
    + exists []. auto.
    + unfold Wait, Cmd_Wait, deferredAfter.
      cbn [st_cmd st_world st_trace waited after Cmd_ set_Cmd_ set_waited
           Command].
      destruct (osexec_Wait _ w1). exists [EvProcessWait]. auto.
  - apply Fields_isField.
  - intros ts Hts ->. apply Fields_concat, Hts.
Qed.

End Proofs.

(** ** The package on the simulated platform *)

Example Fields_echo :
  Fields "  echo hello   world " = ["echo"; "hello"; "world"].
Proof. reflexivity. Qed.

(** Quotes are bytes like any other. *)
Example Fields_no_quoting :
  Fields "echo 'hello world'" = ["echo"; "'hello"; "world'"].
Proof. reflexivity. Qed.

(** A no-break space (U+00A0, the bytes C2 A0) separates fields. *)
Example Fields_unicode_space :
  Fields (String (Ascii.ascii_of_nat 97)
            (String (Ascii.ascii_of_nat 194)
               (String (Ascii.ascii_of_nat 160)
                  (String (Ascii.ascii_of_nat 98) "")))) = ["a"; "b"].
Proof. reflexivity. Qed.

(** [Command("echo", "hello").Output()] *)
Example Output_echo :
  (Output [] sim_echo).1 = ("hello" +:+ String (Ascii.ascii_of_nat 10) "", Nil).
Proof. reflexivity. Qed.

(** The output of a child that exits with an error is returned with the
    error. *)
Example Output_partial :
  (Output [] sim_partial).1 =
    ("partial" +:+ String (Ascii.ascii_of_nat 10) "", Error "exit status 1").
Proof. reflexivity. Qed.

(** System with a Stdout option of the caller: the option fails and the
    shell is not started. *)
Example System_with_Stdout :
  (System "echo hi" [Stdout (Some (bytes_Buffer 0))] sim_world).1 =
    Error "exec: Stdout already set" /\
  processStarts
    (st_trace
       (System "echo hi" [Stdout (Some (bytes_Buffer 0))] sim_world).2) = 0.
Proof. split; reflexivity. Qed.

(** Only a closure of the caller that writes the field itself, past the
    options of this package, replaces the default binding. *)
Example System_with_closure :
  st_trace
    (System "echo hi"
       [custom (fun ec w =>
                  (Nil, osexec.set_Stdout (Some (bytes_Buffer 0)) <$> ec, w))]
       sim_world).2 =
    [EvEnviron;
     EvProcessStart
       {| osexec.Path := "/bin/sh";
          osexec.Args := ["/bin/sh"; "-c"; "echo"; "hi"];
          osexec.Env := Some ["HOME=/root"; "PATH=/bin"];
          osexec.Dir := "";
          osexec.Stdin := Some os_Stdin;
          osexec.Stdout := Some (bytes_Buffer 0);
          osexec.Stderr := Some os_Stderr |};
     EvProcessWait].
Proof. reflexivity. Qed.

(** [Command("git", "status").Run(Dir("/tmp"))] *)
Example Run_dir :
  st_trace (Run [Dir "/tmp"] sim_git).2 =
    [EvEnviron;
     EvProcessStart
       {| osexec.Path := "git"; osexec.Args := ["git"; "status"];
          osexec.Env := Some ["HOME=/root"; "PATH=/bin"];
          osexec.Dir := "/tmp";
          osexec.Stdin := None; osexec.Stdout := None;
          osexec.Stderr := None |};
     EvProcessWait].
Proof. reflexivity. Qed.

(** ** The theorems at concrete inputs *)

(** C8 on the zero value of [Cmd]. *)
Lemma uninitialised_fails_witness :
  initalised (st_cmd sim_zero) = false /\
  Start [Dir "/tmp"] sim_zero =
    (Error "exec: command not initalised", sim_zero) /\
  Run [Dir "/tmp"] sim_zero =
    (Error "exec: command not initalised", sim_zero) /\
  (Output [Dir "/tmp"] sim_zero).1.2 = Error "exec: command not initalised" /\
  st_trace (Output [Dir "/tmp"] sim_zero).2 = [].
Proof.
  split; [reflexivity|].
  destruct (uninitialised_fails [Dir "/tmp"] sim_zero eq_refl)
    as (HS & HR & HO & _ & _ & HT).
  split; [exact HS|]. split; [exact HR|]. split; [exact HO|exact HT].
Defined.

(** C3 on a child that exits with an error and an after-hook that fails:
    the hook runs once, after the wait, and the child's error wins. *)
Lemma Wait_runs_after_hook_witness :
  waited (st_cmd sim_false) = false /\
  Cmd_ (st_cmd sim_false) = Some (osexec.Command "false" []) /\
  after (st_cmd sim_false) = Some hook_fails /\
  st_trace (Wait sim_false).2 = [EvProcessWait; EvAfter] /\
  (Wait sim_false).1 = Error "exit status 1".
Proof.
  split; [reflexivity|]. split; [reflexivity|]. split; [reflexivity|].
  destruct (Wait_runs_after_hook sim_false (osexec.Command "false" [])
              hook_fails eq_refl eq_refl eq_refl) as (HT & _ & _ & HE).
  split; [exact HT|].
  apply HE; [reflexivity|discriminate].
Defined.

(** C5 on four options of which the third fails: the fourth is not
    applied and no process is created. *)
Lemma Start_applies_options_in_order_witness :
  initalised (st_cmd sim_git) = true /\
  Cmd_ (st_cmd sim_git) = Some (osexec.Command "git" ["status"]) /\
  (Start [Dir "/tmp"; Stdout (Some os_Stdout); Stdout (Some os_Stderr);
          Dir "/never"] sim_git).1 = Error "exec: Stdout already set" /\
  processStarts
    (st_trace (Start [Dir "/tmp"; Stdout (Some os_Stdout);
                      Stdout (Some os_Stderr); Dir "/never"] sim_git).2) = 0.
Proof.
  split; [reflexivity|]. split; [reflexivity|].
  destruct (Start_applies_options_in_order
              [Dir "/tmp"; Stdout (Some os_Stdout); Stdout (Some os_Stderr);
               Dir "/never"]
              sim_git (osexec.Command "git" ["status"]) eq_refl eq_refl)
    as [Hstop _].
  destruct (Hstop (Error "exec: Stdout already set")
              (runOpt (Stdout (Some os_Stderr))
                 (applyOptions [Dir "/tmp"; Stdout (Some os_Stdout)]
                    (applyDefaultOptions sim_git).2).2).2) as [HS HP].
  - eapply (stops_at_option _ _ [Dir "/tmp"; Stdout (Some os_Stdout)]
              (Stdout (Some os_Stderr)) [Dir "/never"]).
    + reflexivity.
    + eapply applied_cons; [reflexivity|].
      eapply applied_cons; [reflexivity|]. apply applied_nil.
    + reflexivity.
    + discriminate.
  - rewrite HS. split; [reflexivity|exact HP].
Defined.

(** C2 on [cmd.Output(Dir("/tmp"), Stdout(os.Stdout))]. *)
Lemma Output_rejects_caller_Stdout_witness :
  initalised (st_cmd sim_git) = true /\
  Cmd_ (st_cmd sim_git) = Some (osexec.Command "git" ["status"]) /\
  Forall builtin [Dir "/tmp"] /\
  (Output ([Dir "/tmp"] ++ Stdout (Some os_Stdout) :: []) sim_git).1.2 =
    Error "exec: Stdout already set" /\
  st_trace (Output ([Dir "/tmp"] ++ Stdout (Some os_Stdout) :: []) sim_git).2 =
    [EvEnviron].
Proof.
  assert (Hb : Forall builtin [Dir "/tmp"]) by (repeat constructor).
  assert (Hn : Forall neverFails [Dir "/tmp"])
    by (repeat constructor; apply plain_neverFails; constructor).
  split; [reflexivity|]. split; [reflexivity|]. split; [exact Hb|].
  destruct (Output_rejects_caller_Stdout sim_git
              (osexec.Command "git" ["status"]) [Dir "/tmp"]
              (Some os_Stdout) [] eq_refl eq_refl Hb)
    as ((e & He & _ & Hexact) & HT & _).
  split; [|exact HT]. rewrite He, (Hexact Hn). reflexivity.
Defined.

(** C4 on a command with quotes and an option that sets the directory. *)
Lemma System_splits_on_whitespace_witness :
  Forall plain [Dir "/tmp"] /\
  exists spec tr,
    st_trace (System "echo 'hello world'" [Dir "/tmp"] sim_world).2 =
      EvEnviron :: EvProcessStart spec :: tr /\
    osexec.Args spec = ["/bin/sh"; "-c"; "echo"; "'hello"; "world'"].
Proof.
  assert (Hp : Forall plain [Dir "/tmp"]) by (repeat constructor).
  split; [exact Hp|].
  destruct (@System_splits_on_whitespace sim "echo 'hello world'" sim_world
              [Dir "/tmp"] Hp) as [(spec & tr & HT & _ & HA) _].
  exists spec, tr. split; [exact HT|exact HA].
Defined.

(** C10 on a child that exits with an error: Wait cannot be tried again,
    also not after further calls. *)
Lemma waited_is_never_cleared_witness :
  Forall (fun k => Forall keepsWaited (optionsOf k))
    [CallWait; CallStart [Dir "/tmp"]; CallRun [custom hook_ok];
     CallOutput []] /\
  (Wait sim_partial).1 = Error "exit status 1" /\
  (Wait (calls [CallWait; CallStart [Dir "/tmp"]; CallRun [custom hook_ok];
                CallOutput []] (Wait sim_partial).2)).1 =
    Error "exec: Wait was already called".
Proof.
  assert (Hk : Forall (fun k => Forall keepsWaited (optionsOf k))
                 [CallWait; CallStart [Dir "/tmp"]; CallRun [custom hook_ok];
                  CallOutput []]).
  { repeat first
      [ apply Forall_nil_2
      | apply Forall_cons_2
      | apply builtin_keepsWaited; constructor
      | apply custom_keepsWaited ]. }
  split; [exact Hk|]. split; [reflexivity|].
  destruct (waited_is_never_cleared sim_partial _ Hk) as (_ & _ & _ & HW).
  rewrite HW. reflexivity.
Defined.

(** C6 (amended) on a new command: Stdout bound to the standard output
    stays so when Stdout is applied again, and a registered before-hook
    stays when BeforeFunc is applied again. *)
Lemma fields_are_write_once_witness :
  Cmd_ (st_cmd sim_git) = Some (osexec.Command "git" ["status"]) /\
  (let c1 := (Stdout (Some os_Stdout) (st_cmd sim_git) sim_world).1.2 in
   Cmd_ c1 ≫= osexec.Stdout = Some os_Stdout /\
   Stdout (Some os_Stderr) c1 sim_world =
     (Error "exec: Stdout already set", c1, sim_world)) /\
  (let c1 := (BeforeFunc (Some hook_ok) (st_cmd sim_git)
                sim_world).1.2 in
   BeforeFunc (Some hook_fails) c1 sim_world =
     (Error "exec: BeforeFunc already set", c1, sim_world)).
Proof.
  split; [reflexivity|].
  destruct (fields_are_write_once (st_cmd sim_git) sim_world
              (osexec.Command "git" ["status"]) os_Stdout (Some os_Stderr)
              hook_ok (Some hook_fails) eq_refl)
    as (_ & HO & _ & HB & _).
  split.
  - destruct HO as (H2 & H1 & _). split; [|exact H2].
    apply (H1 eq_refl).
  - destruct HB as (H2 & _). exact H2.
Defined.

(** C6 as stated fails when the first application binds nothing: after
    Stdout with a nil writer, Stdout with a writer returns nil and binds
    it; after BeforeFunc with a nil function, BeforeFunc with a function
    returns nil and registers it. *)
Lemma nil_then_set_succeeds :
  (Stdout None (st_cmd sim_git) sim_world).1.1 = Nil /\
  (let c1 := (Stdout None (st_cmd sim_git) sim_world).1.2 in
   (Stdout (Some os_Stdout) c1 sim_world).1.1 = Nil /\
   Cmd_ (Stdout (Some os_Stdout) c1 sim_world).1.2 ≫= osexec.Stdout =
     Some os_Stdout) /\
  (BeforeFunc None (st_cmd sim_git) sim_world).1.1 = Nil /\
  (let c1 := (BeforeFunc None (st_cmd sim_git) sim_world).1.2 in
   (BeforeFunc (Some hook_ok) c1 sim_world).1.1 = Nil /\
   before (BeforeFunc (Some hook_ok) c1 sim_world).1.2 = Some hook_ok).
Proof. repeat split. Qed.

(** On the zero value of [Cmd] a stream option dereferences the nil
    embedded pointer. *)
Example Stdout_on_zero_Cmd :
  (Stdout (Some os_Stdout) (st_cmd sim_zero) sim_world).1.1 = Panics.
Proof. reflexivity. Qed.

(** C7 (amended) on an environment with one entry for PATH. *)
Lemma Setenv_twice_one_entry_witness :
  initalised (st_cmd sim_git) = true /\
  Cmd_ (st_cmd sim_git) = Some (osexec.Command "git" ["status"]) /\
  length (entriesFor "PATH" ["HOME=/root"; "PATH=/bin"]) <= 1 /\
  exists E',
    st_trace (Start [Setenv "PATH" "/usr/bin"; Setenv "PATH" "/opt/bin"]
                sim_git).2 =
      [EvEnviron;
       EvProcessStart
         (osexec.set_Env (Some E') (osexec.Command "git" ["status"]))] /\
    entriesFor "PATH" E' = ["PATH=/opt/bin"].
Proof.
  assert (Hone : length (entriesFor "PATH" ["HOME=/root"; "PATH=/bin"]) <= 1)
    by (vm_compute; lia).
  split; [reflexivity|]. split; [reflexivity|]. split; [exact Hone|].
  destruct (Setenv_twice_one_entry sim_git (osexec.Command "git" ["status"])
              "PATH" "/usr/bin" "/opt/bin" eq_refl eq_refl Hone)
    as (E' & _ & _ & HT & HE & _).
  exists E'. split; [exact (HT eq_refl)|exact HE].
Defined.

(** C7 as stated fails on an environment that holds the key twice: the
    first entry is written over, the second stays, and the process is
    created with two entries for the key. *)
Lemma Setenv_twice_keeps_duplicate :
  st_trace (Start [Setenv "K" "v1"; Setenv "K" "v2"] sim_go).2 =
    [EvEnviron;
     EvProcessStart
       (osexec.set_Env (Some ["K=v2"; "HOME=/root"; "K=b"])
          (osexec.Command "go" []))] /\
  entriesFor "K" ["K=v2"; "HOME=/root"; "K=b"] = ["K=v2"; "K=b"].
Proof. split; reflexivity. Qed.

(** ** More of the code *)

Section MoreProofs.

Context `{Platform}.

Implicit Types (s : State) (c : Cmd) (w : World) (opts : list Opt).

(** *** The options *)

(** X1. Dir has no guard: on a command with its embedded command it
    returns nil whether or not a directory was set, writes the directory
    and nothing else, and of two applications the second wins. *)
Theorem Dir_overwrites c w ec d1 d2 :
  Cmd_ c = Some ec ->
  Dir d2 c w = (Nil, set_Cmd_ (Some (osexec.set_Dir d2 ec)) c, w) /\
  Dir d2 (Dir d1 c w).1.2 (Dir d1 c w).2 = Dir d2 c w.
Proof.
  intros Hc. unfold Dir, deref. rewrite Hc. split; reflexivity.
Qed.

(** X2. An option of this package never touches the world, and when it
    returns an error it has changed nothing in the command; the error is
    one of the five "already set" errors. *)
Theorem builtin_failure_changes_nothing opt c w :
  builtin opt ->
  (opt c w).2 = w /\
  (forall e, (opt c w).1.1 = Error e -> alreadySet e /\ (opt c w).1.2 = c).
Proof.
  unfold alreadySet.
  intros [d|r|wr|wr|fn|fn|k v];
    unfold Dir, Stdin, Stdout, Stderr, Setenv, BeforeFunc, AfterFunc, deref.
  - destruct (Cmd_ c); split; try reflexivity; intros e; discriminate.
  - destruct (Cmd_ c) as [ec|] eqn:Hc; [|split; [reflexivity|discriminate]].
    destruct (osexec.Stdin ec); split; try reflexivity; intros e He;
      [|discriminate].
    injection He as <-. split; [repeat constructor|].
    apply set_Cmd__same, Hc.
  - destruct (Cmd_ c) as [ec|] eqn:Hc; [|split; [reflexivity|discriminate]].
    destruct (osexec.Stdout ec); split; try reflexivity; intros e He;
      [|discriminate].
    injection He as <-. split; [repeat constructor|].
    apply set_Cmd__same, Hc.
  - destruct (Cmd_ c) as [ec|] eqn:Hc; [|split; [reflexivity|discriminate]].
    destruct (osexec.Stderr ec); split; try reflexivity; intros e He;
      [|discriminate].
    injection He as <-. split; [repeat constructor|].
    apply set_Cmd__same, Hc.
  - destruct (before c); split; try reflexivity; intros e He;
      [|discriminate].
    injection He as <-. split; [repeat constructor|reflexivity].
  - destruct (after c); split; try reflexivity; intros e He;
      [|discriminate].
    injection He as <-. split; [repeat constructor|reflexivity].
  - destruct (Cmd_ c); [|split; [reflexivity|discriminate]].
    destruct (setenvLoop _ _ _); split; try reflexivity; discriminate.
Qed.

(** *** Setenv *)

Lemma envSet_length key val env :
  length env <= length (envSet key val env) <= S (length env).
Proof.
  induction env as [|e env IH].
  - rewrite envSet_nil. simpl. lia.
  - rewrite envSet_cons. destruct (String.prefix _ e); simpl; lia.
Qed.

Lemma envSet_lookup_other key val env i e :
  env !! i = Some e ->
  String.prefix (key +:+ "=") e = false ->
  envSet key val env !! i = Some e.
Proof.
  revert i. induction env as [|e' env IH]; intros i Hi He; [discriminate|].
  rewrite envSet_cons. destruct (String.prefix (key +:+ "=") e') eqn:He'.
  - destruct i as [|i]; [|exact Hi]. simpl in Hi. congruence.
  - destruct i as [|i]; [exact Hi|]. simpl in *. apply IH; assumption.
Qed.

(** X3. Setenv returns nil and drops or moves no entry: the environment
    keeps its length or grows by one, every entry that does not start
    with the key and an equals sign stays at its index, and the first
    of the entries for the key is the new one, the later ones being those
    that were there. *)
Theorem Setenv_keeps_other_entries c w ec K v :
  Cmd_ c = Some ec ->
  let env := default [] (osexec.Env ec) in
  let env' := envOf (Setenv K v c w).1.2 in
  (Setenv K v c w).1.1 = Nil /\
  length env <= length env' <= S (length env) /\
  (forall i e, env !! i = Some e ->
               String.prefix (K +:+ "=") e = false ->
               env' !! i = Some e) /\
  entriesFor K env' = ((K +:+ "=") +:+ v) :: tail (entriesFor K env).
Proof.
  intros Hc env env'. subst env'. rewrite (Setenv_spec K v c w ec Hc).
  unfold envOf. cbn. fold env.
  split; [reflexivity|]. split; [apply envSet_length|].
  split; [intros i e; apply envSet_lookup_other|apply entriesFor_envSet].
Qed.

Lemma prefix_key_unique k1 k2 e :
  noEquals k1 = true ->
  noEquals k2 = true ->
  String.prefix (k1 +:+ "=") e = true ->
  String.prefix (k2 +:+ "=") e = true ->
  k1 = k2.
Proof.
  revert k2 e. induction k1 as [|a k1 IH]; intros [|b k2] [|x e] H1 H2 P1 P2;
    try reflexivity; try discriminate;
    rewrite ?append_nil, ?append_cons in *; cbn [String.prefix noEquals] in *;
    repeat match goal with
           | P : context [Ascii.ascii_dec ?p ?q] |- _ =>
               destruct (Ascii.ascii_dec p q); [subst|discriminate]
           end.
  - rewrite Ascii.eqb_refl in H2. discriminate.
  - rewrite Ascii.eqb_refl in H1. discriminate.
  - apply andb_true_iff in H1 as [_ H1]. apply andb_true_iff in H2 as [_ H2].
    f_equal. eapply IH; eassumption.
Qed.

Lemma entriesFor_envSet_other K K' v env :
  noEquals K = true ->
  noEquals K' = true ->
  K <> K' ->
  entriesFor K' (envSet K v env) = entriesFor K' env.
Proof.
  intros HK HK' Hne.
  assert (Hnot : forall e, String.prefix (K +:+ "=") e = true ->
                           String.prefix (K' +:+ "=") e <> true).
  { intros e P1 P2. apply Hne. eapply prefix_key_unique; eassumption. }
  unfold entriesFor. induction env as [|e env IH].
  - rewrite envSet_nil. apply filter_cons_False, Hnot, prefix_app.
  - rewrite envSet_cons. destruct (String.prefix (K +:+ "=") e) eqn:He.
    + rewrite !filter_cons_False; [reflexivity|apply Hnot, He|].
      apply Hnot, prefix_app.
    + destruct (decide (String.prefix (K' +:+ "=") e = true)) as [P|P].
      * rewrite !filter_cons_True by exact P. f_equal. exact IH.
      * rewrite !filter_cons_False by exact P. exact IH.
Qed.

(** X4. Setenv for one key leaves the entries for every other key as
    they are (keys without an equals sign). *)
Theorem Setenv_leaves_other_keys c w ec K K' v :
  Cmd_ c = Some ec ->
  noEquals K = true ->
  noEquals K' = true ->
  K <> K' ->
  entriesFor K' (envOf (Setenv K v c w).1.2) =
    entriesFor K' (default [] (osexec.Env ec)).
Proof.
  intros Hc HK HK' Hne. rewrite (Setenv_spec K v c w ec Hc).
  unfold envOf. cbn. apply entriesFor_envSet_other; assumption.
Qed.

(** X5. Of two Setenv for one key the second wins: applying both is
    applying the second alone, whatever the environment holds; so
    applying one twice is applying it once. *)
Theorem Setenv_last_wins s ec K v1 v2 :
  Cmd_ (st_cmd s) = Some ec ->
  applyOptions [Setenv K v1; Setenv K v2] s = applyOptions [Setenv K v2] s /\
  applyOptions [Setenv K v2; Setenv K v2] s = applyOptions [Setenv K v2] s.
Proof.
  intros Hc.
  assert (Hgen : forall a b,
             applyOptions [Setenv K a; Setenv K b] s =
               applyOptions [Setenv K b] s).
  { intros a b. cbn [applyOptions]. unfold andThen, runOpt.
    rewrite !(Setenv_spec K _ (st_cmd s) (st_world s) ec Hc).
    cbn [st_cmd st_world st_trace].
    erewrite Setenv_spec by reflexivity.
    change (default [] (osexec.Env (osexec.set_Env (Some ?x) ec))) with x.
    rewrite envSet_envSet. reflexivity. }
  split; apply Hgen.
Qed.

(** *** Start and Run *)

Lemma applyDefaultOptions_trace_shape s :
  exists env, st_trace (applyDefaultOptions s).2 = st_trace s ++ env /\
              (env = [] \/ env = [EvEnviron]).
Proof.
  unfold applyDefaultOptions. destruct (Cmd_ (st_cmd s)) as [ec|].
  - destruct (osexec.Env ec).
    + exists []. rewrite app_nil_r. auto.
    + exists [EvEnviron]. auto.
  - exists []. rewrite app_nil_r. auto.
Qed.

Lemma Start_trace_shape opts s r s' :
  Start opts s = (r, s') ->
  exists env bef proc,
    st_trace s' = st_trace s ++ env ++ bef ++ proc /\
    (env = [] \/ env = [EvEnviron]) /\
    (bef = [] \/ bef = [EvBefore]) /\
    (proc = [] \/ exists spec, proc = [EvProcessStart spec]) /\
    (r = Nil -> exists spec, proc = [EvProcessStart spec]).
Proof.
  unfold Start. destruct (negb (initalised (st_cmd s))).
  { intros [= <- <-]. exists [], [], []. rewrite app_nil_r.
    repeat split; auto. discriminate. }
  destruct (applyDefaultOptions_trace_shape s) as (env & Henv & Hshape).
  unfold andThen at 1. destruct (applyDefaultOptions s) as [r0 s0].
  cbn [snd] in Henv.
  assert (Hstop : forall bef,
            st_trace s' = st_trace s ++ env ++ bef ->
            (bef = [] \/ bef = [EvBefore]) ->
            r <> Nil ->
            exists env bef proc,
              st_trace s' = st_trace s ++ env ++ bef ++ proc /\
              (env = [] \/ env = [EvEnviron]) /\
              (bef = [] \/ bef = [EvBefore]) /\
              (proc = [] \/ exists spec, proc = [EvProcessStart spec]) /\
              (r = Nil -> exists spec, proc = [EvProcessStart spec])).
  { intros bef Ht Hbef Hr. exists env, bef, []. rewrite !app_nil_r.
    repeat split; auto. intros Hn. contradiction. }
  destruct r0;
    [|intros [= <- <-]; apply (Hstop []);
      [rewrite app_nil_r; exact Henv|auto|discriminate]..].
  unfold andThen at 1.
  pose proof (applyOptions_trace opts s0) as Hopts.
  destruct (applyOptions opts s0) as [r1 s1]. cbn [snd] in Hopts.
  rewrite Henv in Hopts.
  destruct r1;
    [|intros [= <- <-]; apply (Hstop []);
      [rewrite app_nil_r; exact Hopts|auto|discriminate]..].
  unfold andThen, runBefore.
  assert (Hproc : forall t bef,
            st_trace t = st_trace s ++ env ++ bef ->
            (bef = [] \/ bef = [EvBefore]) ->
            Cmd_Start t = (r, s') ->
            exists env bef proc,
              st_trace s' = st_trace s ++ env ++ bef ++ proc /\
              (env = [] \/ env = [EvEnviron]) /\
              (bef = [] \/ bef = [EvBefore]) /\
              (proc = [] \/ exists spec, proc = [EvProcessStart spec]) /\
              (r = Nil -> exists spec, proc = [EvProcessStart spec])).
  { intros t bef Ht Hbef. unfold Cmd_Start.
    destruct (Cmd_ (st_cmd t)) as [ec|].
    - destruct (osexec_Start ec (st_world t)) as [e w']. intros [= <- <-].
      cbn [st_trace]. exists env, bef, [EvProcessStart ec].
      rewrite Ht, <- !app_assoc. repeat split; eauto.
    - intros [= <- <-]. apply (Hstop bef); [exact Ht|exact Hbef|discriminate]. }
  destruct (before (st_cmd s1)) as [h|].
  - pose proof (callHook_trace EvBefore h s1) as Hh.
    destruct (callHook EvBefore h s1) as [r2 s2]. cbn [snd] in Hh.
    rewrite Hopts, <- app_assoc in Hh.
    destruct r2.
    + apply (Hproc s2 [EvBefore]); auto.
    + intros [= <- <-]. apply (Hstop [EvBefore]); [exact Hh|auto|discriminate].
    + intros [= <- <-]. apply (Hstop [EvBefore]); [exact Hh|auto|discriminate].
  - apply (Hproc s1 []); [rewrite app_nil_r; exact Hopts|auto].
Qed.

(** X6. Whatever the command and the options, Start adds to the trace at
    most one reading of the environment, then at most one call of the
    before-hook, then at most one process creation, in this order, and
    nothing of the wait; and when it returns nil, the process-creation
    primitive was invoked. *)
Theorem Start_adds_at_most_one_process opts s :
  exists added,
    st_trace (Start opts s).2 = st_trace s ++ added /\
    processStarts added <= 1 /\
    Forall (fun ev => isWaitEvent ev = false) added /\
    ((Start opts s).1 = Nil -> processStarts added = 1).
Proof.
  destruct (Start opts s) as [r s'] eqn:HS. cbn [fst snd].
  destruct (Start_trace_shape opts s r s' HS)
    as (env & bef & proc & Ht & Henv & Hbef & Hproc & Hnil).
  exists (env ++ bef ++ proc). split; [exact Ht|].
  assert (He : processStarts env = 0 /\
               Forall (fun ev => isWaitEvent ev = false) env)
    by (destruct Henv as [->| ->]; split; repeat constructor).
  assert (Hb : processStarts bef = 0 /\
               Forall (fun ev => isWaitEvent ev = false) bef)
    by (destruct Hbef as [->| ->]; split; repeat constructor).
  assert (Hp : processStarts proc <= 1 /\
               Forall (fun ev => isWaitEvent ev = false) proc)
    by (destruct Hproc as [->|[spec ->]]; split; repeat constructor).
  destruct He as [He1 He2], Hb as [Hb1 Hb2], Hp as [Hp1 Hp2].
  assert (Hsum : processStarts (env ++ bef ++ proc) = processStarts proc).
  { unfold processStarts in *. rewrite !filter_app, !length_app. lia. }
  rewrite Hsum. split; [exact Hp1|]. split.
  - repeat (apply Forall_app; split); assumption.
  - intros Hn. destruct (Hnil Hn) as [spec ->]. reflexivity.
Qed.

(** X7. When Start does not return nil, Run returns what Start returned
    in the state Start left: Wait is not called, so neither the platform
    wait nor the after-hook runs. *)
Theorem Run_without_Wait opts s :
  (Start opts s).1 <> Nil ->
  Run opts s = Start opts s /\
  exists added,
    st_trace (Run opts s).2 = st_trace s ++ added /\
    Forall (fun ev => isWaitEvent ev = false) added.
Proof.
  intros Hr.
  assert (HR : Run opts s = Start opts s).
  { unfold Run, andThen. destruct (Start opts s) as [r s'].
    destruct r; [contradiction|reflexivity..]. }
  split; [exact HR|]. rewrite HR.
  destruct (Start opts s) as [r s'] eqn:HS. cbn [snd].
  destruct (Start_trace_shape opts s r s' HS)
    as (env & bef & proc & Ht & Henv & Hbef & Hproc & _).
  exists (env ++ bef ++ proc). split; [exact Ht|].
  repeat (apply Forall_app; split).
  - destruct Henv as [->| ->]; repeat constructor.
  - destruct Hbef as [->| ->]; repeat constructor.
  - destruct Hproc as [->|[spec ->]]; repeat constructor.
Qed.

(** X8. A command is used up by Run: after a Run whose Start returned
    nil, no further Run or Output returns nil; if the second Start gets
    through, the error is that of the second Wait. *)
Theorem Run_cannot_be_reused opts1 opts2 s :
  (Start opts1 s).1 = Nil ->
  Forall keepsWaited opts2 ->
  let s1 := (Run opts1 s).2 in
  (Run opts2 s1).1 <> Nil /\
  (Output opts2 s1).1.2 <> Nil /\
  ((Start opts2 s1).1 = Nil ->
   (Run opts2 s1).1 = Error "exec: Wait was already called").
Proof.
  intros H1 Hk s1.
  assert (Hw : waited (st_cmd s1) = true).
  { subst s1. unfold Run, andThen. destruct (Start opts1 s) as [r t].
    cbn [fst] in H1. subst r. apply Wait_sets_waited. }
  assert (Hrun : forall opts t,
             Forall keepsWaited opts -> waited (st_cmd t) = true ->
             (Run opts t).1 <> Nil /\
             ((Start opts t).1 = Nil ->
              (Run opts t).1 = Error "exec: Wait was already called")).
  { intros opts t Ho Ht. unfold Run, andThen.
    pose proof (Start_preservesWaited opts Ho t Ht) as Ht'.
    destruct (Start opts t) as [r t']. cbn [fst snd] in *.
    destruct r; try (split; [discriminate|discriminate]).
    rewrite (Wait_already t' Ht'). split; [discriminate|reflexivity]. }
  split; [apply Hrun; assumption|]. split; [|apply Hrun; assumption].
  unfold Output. destruct (new_Buffer (st_world s1)) as [b w'].
  match goal with |- context [Run ?o ?t] =>
    destruct (Hrun o t) as [Hne _];
      [constructor; [apply builtin_keepsWaited; constructor|exact Hk]
      |exact Hw|];
    destruct (Run o t) as [r t'] end.
  exact Hne.
Qed.

(** *** A command that was not initialised, again *)

Lemma Wait_initalised s :
  initalised (st_cmd (Wait s).2) = initalised (st_cmd s).
Proof.
  unfold Wait. destruct (waited (st_cmd s)); [reflexivity|].
  match goal with |- context [Cmd_Wait ?t] =>
    pose proof (Cmd_Wait_cmd t) as Hc; destruct (Cmd_Wait t) as [r s1] end.
  cbn [snd st_cmd] in Hc. unfold deferredAfter.
  destruct (after (st_cmd s1)) as [h|];
    [|cbn [snd]; rewrite Hc; reflexivity].
  unfold callHook. destruct (h _ _) as [[ra ec] w].
  cbn [snd st_cmd set_Cmd_ initalised]. rewrite Hc. reflexivity.
Qed.

Lemma call_uninitialised k s :
  initalised (st_cmd s) = false -> initalised (st_cmd (call k s)) = false.
Proof.
  intros Hi. destruct k as [opts| |opts|opts]; cbn [call].
  - rewrite Start_uninitialised by exact Hi. exact Hi.
  - rewrite Wait_initalised. exact Hi.
  - rewrite Run_uninitialised by exact Hi. exact Hi.
  - unfold Output. destruct (new_Buffer (st_world s)) as [b w].
    rewrite Run_uninitialised by exact Hi. exact Hi.
Qed.

(** X9. No method makes a command initialised: on a command that is not
    (the zero value), after any calls of Start, Wait, Run and Output with
    any options, Start, Run and Output still return "exec: command not
    initalised" and add nothing to the trace. *)
Theorem uninitialised_for_good s ks opts :
  initalised (st_cmd s) = false ->
  let t := calls ks s in
  initalised (st_cmd t) = false /\
  Start opts t = (Error "exec: command not initalised", t) /\
  Run opts t = (Error "exec: command not initalised", t) /\
  (Output opts t).1.2 = Error "exec: command not initalised" /\
  st_trace (Output opts t).2 = st_trace t.
Proof.
  intros Hi t.
  assert (Ht : initalised (st_cmd t) = false).
  { subst t. revert s Hi. induction ks as [|k ks IH]; intros s Hi; [exact Hi|].
    cbn. apply IH, call_uninitialised, Hi. }
  split; [exact Ht|]. split; [apply Start_uninitialised, Ht|].
  split; [apply Run_uninitialised, Ht|].
  unfold Output. destruct (new_Buffer (st_world t)) as [b w].
  rewrite Run_uninitialised by exact Ht. split; reflexivity.
Qed.

(** X10. Wait does not look at [initalised]: on a command whose embedded
    pointer is nil (the zero value) the first Wait panics without
    reaching the platform; [waited] is set all the same, and an
    after-hook, if one was registered, is still called once. *)
Theorem Wait_on_nil_pointer s :
  Cmd_ (st_cmd s) = None ->
  waited (st_cmd s) = false ->
  (Wait s).1 = Panics /\
  waited (st_cmd (Wait s).2) = true /\
  st_trace (Wait s).2 =
    st_trace s ++ match after (st_cmd s) with
                  | Some _ => [EvAfter]
                  | None => []
                  end.
Proof.
  intros Hc Hw. unfold Wait. rewrite Hw. unfold Cmd_Wait.
  cbn [st_cmd st_world st_trace set_waited Cmd_]. rewrite Hc.
  unfold deferredAfter. cbn [st_cmd st_world st_trace set_waited after].
  destruct (after (st_cmd s)) as [h|].
  - unfold callHook. cbn [st_cmd st_world st_trace set_waited Cmd_].
    rewrite Hc. destruct (h None (st_world s)) as [[ra ec] w'].
    split; [destruct ra; reflexivity|]. split; reflexivity.
  - rewrite app_nil_r. repeat split.
Qed.

(** *** Output *)

Lemma withEnviron_streams w ec :
  osexec.Stdin (withEnviron w ec) = osexec.Stdin ec /\
  osexec.Stdout (withEnviron w ec) = osexec.Stdout ec /\
  osexec.Stderr (withEnviron w ec) = osexec.Stderr ec.
Proof. unfold withEnviron. destruct (osexec.Env ec); repeat split. Qed.

(** X11. Output needs the standard output unbound: on an initialised
    command whose Stdout is bound (by an earlier Start, Run or Output, or
    by the caller), Output returns "exec: Stdout already set" for every
    list of options, none of which is applied, and no process is
    created. *)
Theorem Output_on_bound_Stdout opts s ec v :
  initalised (st_cmd s) = true ->
  Cmd_ (st_cmd s) = Some ec ->
  osexec.Stdout ec = Some v ->
  (Output opts s).1.2 = Error "exec: Stdout already set" /\
  st_cmd (Output opts s).2 =
    set_Cmd_ (Some (withEnviron (new_Buffer (st_world s)).2 ec)) (st_cmd s) /\
  st_trace (Output opts s).2 = st_trace s ++ defaultsTrace ec.
Proof.
  intros Hi Hc Hv. unfold Output.
  destruct (new_Buffer (st_world s)) as [b w']. cbn [snd app].
  assert (HR : Run (Stdout (Some (bytes_Buffer b)) :: opts)
                 (mkState (st_cmd s) w' (st_trace s)) =
               (Error "exec: Stdout already set",
                mkState (set_Cmd_ (Some (withEnviron w' ec)) (st_cmd s)) w'
                  (st_trace s ++ defaultsTrace ec))).
  { unfold Run. unfold andThen at 1.
    rewrite (Start_unfold _ (mkState (st_cmd s) w' (st_trace s)) ec Hi Hc).
    rewrite (applyDefaultOptions_spec (mkState (st_cmd s) w' (st_trace s))
               ec Hc).
    cbn [snd st_cmd st_world st_trace applyOptions].
    unfold andThen at 1. unfold andThen at 1. unfold runOpt, Stdout, deref.
    cbn [st_cmd st_world st_trace Cmd_ set_Cmd_].
    destruct (withEnviron_streams w' ec) as (_ & -> & _). rewrite Hv.
    reflexivity. }
  rewrite HR. repeat split.
Qed.

Lemma applyOptions_plain_streams opts : forall c w tr ec,
  Forall plain opts ->
  Cmd_ c = Some ec ->
  exists ec',
    applyOptions opts (mkState c w tr) =
      (Nil, mkState (set_Cmd_ (Some ec') c) w tr) /\
    osexec.Stdin ec' = osexec.Stdin ec /\
    osexec.Stdout ec' = osexec.Stdout ec /\
    osexec.Stderr ec' = osexec.Stderr ec.
Proof.
  induction opts as [|opt opts IH]; intros c w tr ec Hopts Hc.
  - exists ec. rewrite (set_Cmd__same c ec Hc). auto.
  - inversion Hopts as [|? ? Hopt Hrest]; subst.
    cbn [applyOptions]. unfold andThen, runOpt. cbn [st_cmd st_world st_trace].
    destruct Hopt as [d|k v].
    + unfold Dir, deref. rewrite Hc.
      destruct (IH (set_Cmd_ (Some (osexec.set_Dir d ec)) c) w tr
                  (osexec.set_Dir d ec) Hrest eq_refl)
        as (ec' & -> & H1 & H2 & H3).
      exists ec'. auto.
    + rewrite (Setenv_spec k v c w ec Hc).
      match goal with |- context [set_Cmd_ (Some ?e) c] =>
        destruct (IH (set_Cmd_ (Some e) c) w tr e Hrest eq_refl)
          as (ec' & -> & H1 & H2 & H3) end.
      exists ec'. auto.
Qed.

Lemma Wait_trace_extends s : exists tr, st_trace (Wait s).2 = st_trace s ++ tr.
Proof.
  unfold Wait. destruct (waited (st_cmd s)).
  { exists []. rewrite app_nil_r. reflexivity. }
  unfold Cmd_Wait. cbn [st_cmd st_world st_trace].
  destruct (Cmd_ (set_waited true (st_cmd s))) as [ec|].
  - destruct (osexec_Wait ec (st_world s)) as [e w1]. unfold deferredAfter.
    cbn [st_cmd]. destruct (after _) as [h|].
    + unfold callHook. destruct (h _ _) as [[ra ec'] w2].
      exists [EvProcessWait; EvAfter]. cbn. rewrite <- app_assoc. reflexivity.
    + exists [EvProcessWait]. reflexivity.
  - unfold deferredAfter. cbn [st_cmd]. destruct (after _) as [h|].
    + unfold callHook. destruct (h _ _) as [[ra ec'] w2].
      exists [EvAfter]. reflexivity.
    + exists []. rewrite app_nil_r. reflexivity.
Qed.

(** X12. Output captures: on an initialised command without a bound
    Stdout and without before-hook, with options that write the
    directory or the environment, the process is created with its
    standard output bound to the buffer Output has just made, and Output
    returns the bytes of that buffer as the world holds them at the
    end. *)
Theorem Output_binds_its_buffer opts s ec :
  initalised (st_cmd s) = true ->
  Cmd_ (st_cmd s) = Some ec ->
  osexec.Stdout ec = None ->
  before (st_cmd s) = None ->
  Forall plain opts ->
  let b := (new_Buffer (st_world s)).1 in
  exists spec tr,
    st_trace (Output opts s).2 =
      st_trace s ++ defaultsTrace ec ++ EvProcessStart spec :: tr /\
    osexec.Stdout spec = Some (bytes_Buffer b) /\
    (Output opts s).1.1 = Buffer_Bytes b (st_world (Output opts s).2).
Proof.
  intros Hi Hc Hv Hb Hopts. unfold Output.
  destruct (new_Buffer (st_world s)) as [b w']. cbn [fst app].
  assert (HR : exists spec tr,
             st_trace (Run (Stdout (Some (bytes_Buffer b)) :: opts)
                         (mkState (st_cmd s) w' (st_trace s))).2 =
               st_trace s ++ defaultsTrace ec ++ EvProcessStart spec :: tr /\
             osexec.Stdout spec = Some (bytes_Buffer b)).
  { unfold Run. unfold andThen at 1.
    rewrite (Start_unfold _ (mkState (st_cmd s) w' (st_trace s)) ec Hi Hc).
    rewrite (applyDefaultOptions_spec (mkState (st_cmd s) w' (st_trace s))
               ec Hc).
    cbn [snd st_cmd st_world st_trace applyOptions].
    unfold andThen at 1. unfold andThen at 1. unfold runOpt, Stdout, deref.
    cbn [st_cmd st_world st_trace Cmd_ set_Cmd_].
    destruct (withEnviron_streams w' ec) as (_ & -> & _). rewrite Hv.
    match goal with |- context [applyOptions opts (mkState ?c ?w ?tr)] =>
      match c with context [Some ?e] =>
        destruct (applyOptions_plain_streams opts c w tr e Hopts eq_refl)
          as (ec' & -> & _ & HO & _) end end.
    unfold andThen at 1. unfold runBefore.
    cbn [st_cmd st_world st_trace before set_Cmd_]. rewrite Hb.
    unfold Cmd_Start. cbn [st_cmd st_world st_trace Cmd_ set_Cmd_].
    destruct (osexec_Start ec' w') as [[e|] w1]; cbn [of_error].
    - exists ec', []. cbn [fst snd st_trace st_world].
      rewrite <- app_assoc. split; [reflexivity|exact HO].
    - match goal with |- context [Wait ?t] =>
        destruct (Wait_trace_extends t) as [tr Htr] end.
      exists ec', tr. rewrite Htr. cbn [st_trace].
      rewrite <- !app_assoc. split; [reflexivity|exact HO]. }
  destruct HR as (spec & tr & HT & HO). exists spec, tr.
  destruct (Run _ _) as [r t]. cbn [fst snd] in *. auto.
Qed.

(** *** The hooks in a run *)

(** X13. A run with both hooks, registered by options of the same call:
    on a new command (initialised, not waited for, no hooks yet), when
    the before-hook returns nil and the process is created, the trace
    gains the before-hook, the process creation with the command as the
    before-hook left it, the platform wait and the after-hook, in this
    order; Run returns the platform wait's error if there is one, else
    what the after-hook returned. *)
Theorem Run_calls_hooks_in_order s ec f g ec1 w1 w2 :
  initalised (st_cmd s) = true ->
  Cmd_ (st_cmd s) = Some ec ->
  waited (st_cmd s) = false ->
  before (st_cmd s) = None ->
  after (st_cmd s) = None ->
  f (Some (withEnviron (st_world s) ec)) (st_world s) = (Nil, Some ec1, w1) ->
  osexec_Start ec1 w1 = (None, w2) ->
  let run := Run [BeforeFunc (Some f); AfterFunc (Some g)] s in
  let pw := osexec_Wait ec1 w2 in
  let ga := g (Some ec1) pw.2 in
  st_trace run.2 =
    st_trace s ++ defaultsTrace ec ++
    [EvBefore; EvProcessStart ec1; EvProcessWait; EvAfter] /\
  st_world run.2 = ga.2 /\
  run.1 = match ga.1.1, pw.1 with
          | Panics, _ => Panics
          | r, None => r
          | _, Some e => Error e
          end.
Proof.
  intros Hi Hc Hw Hb Ha Hf Hst run pw ga. subst run pw ga.
  destruct (Run [BeforeFunc (Some f); AfterFunc (Some g)] s) as [r t] eqn:HR.
  revert HR. unfold Run. unfold andThen at 1.
  rewrite (Start_unfold _ s ec Hi Hc).
  rewrite (applyDefaultOptions_spec s ec Hc).
  cbn [snd applyOptions]. unfold andThen at 1. unfold andThen at 1.
  unfold runOpt at 1, BeforeFunc.
  cbn [st_cmd st_world st_trace before set_Cmd_]. rewrite Hb.
  unfold andThen at 1. unfold runOpt at 1, AfterFunc.
  cbn [st_cmd st_world st_trace after set_Cmd_ set_before]. rewrite Ha.
  unfold andThen at 1. unfold runBefore, callHook.
  cbn [st_cmd st_world st_trace before after set_Cmd_ set_before set_after
       Cmd_].
  rewrite Hf. unfold Cmd_Start.
  cbn [st_cmd st_world st_trace before after set_Cmd_ set_before set_after
       Cmd_].
  rewrite Hst. cbn [of_error].
  unfold Wait.
  cbn [st_cmd st_world st_trace before after set_Cmd_ set_before set_after
       Cmd_ waited].
  rewrite Hw. unfold Cmd_Wait.
  cbn [st_cmd st_world st_trace before after set_Cmd_ set_before set_after
       Cmd_ waited set_waited].
  destruct (osexec_Wait ec1 w2) as [e w3]. unfold deferredAfter, callHook.
  cbn [st_cmd st_world st_trace before after set_Cmd_ set_before set_after
       Cmd_ waited set_waited fst snd].
  destruct (g (Some ec1) w3) as [[ra ec2] w4]. intros [= <- <-].
  cbn [st_cmd st_world st_trace fst snd]. rewrite <- !app_assoc.
  split; [reflexivity|]. split; [reflexivity|].
  destruct ra, e; reflexivity.
Qed.

(** *** System *)

Lemma Fields_blank command : blank command = true -> Fields command = [].
Proof.
  induction command as [|a rest IH]; [reflexivity|].
  cbn [blank]. intros [Ha Hrest]%andb_true_iff.
  rewrite <- (append_nil (String a rest)), Fields_app_space by exact Ha.
  apply IH, Hrest.
Qed.

(** X14. A command line without a word: when the command is empty or
    holds ASCII white space only, System still creates the process, of
    the shell with "-c" as its only argument. *)
Theorem System_blank_command command w :
  blank command = true ->
  exists tr,
    st_trace (System command [] w).2 =
      EvEnviron ::
      EvProcessStart
        {| osexec.Path := "/bin/sh";
           osexec.Args := ["/bin/sh"; "-c"];
           osexec.Env := Some (os_Environ w);
           osexec.Dir := "";
           osexec.Stdin := Some os_Stdin;
           osexec.Stdout := Some os_Stdout;
           osexec.Stderr := Some os_Stderr |} :: tr.
Proof.
  intros Hb. rewrite System_trace. unfold shellSpec.
  rewrite (Fields_blank command Hb). eexists. reflexivity.
Qed.

(** *** The earlier stages *)

Lemma old_applyOptions_trace os t :
  exec_go.st_trace (exec_go.applyOptions os t).2 = exec_go.st_trace t.
Proof.
  revert t. induction os as [|o os IH]; intros t; [reflexivity|].
  cbn [exec_go.applyOptions]. unfold exec_go.andThen, exec_go.runOpt.
  destruct (o _ _) as [[r p] w]. destruct r; cbn; try reflexivity.
  rewrite IH. reflexivity.
Qed.

Lemma old_applyOptions_app pre post t :
  exec_go.applyOptions (pre ++ post) t =
    exec_go.andThen (exec_go.applyOptions pre) (exec_go.applyOptions post) t.
Proof.
  revert t. induction pre as [|o pre IH]; intros t.
  - cbn. unfold exec_go.andThen. reflexivity.
  - cbn [app exec_go.applyOptions]. unfold exec_go.andThen.
    destruct (exec_go.runOpt o t) as [r t1]. destruct r; try reflexivity.
    rewrite IH. reflexivity.
Qed.

(** An option of exec.go on a command whose Stdout is bound: it returns
    nil and leaves Stdout bound, or fails with an "already set" error. *)
Lemma old_builtin_keeps_Stdout o ec w v :
  exec_go.builtin o ->
  osexec.Stdout ec = Some v ->
  (exists ec', o (Some ec) w = (Nil, Some ec', w) /\
               osexec.Stdout ec' = Some v) \/
  (exists e, (o (Some ec) w).1.1 = Error e /\ alreadySet e).
Proof.
  unfold alreadySet. intros [d|r|wr|wr] Hv;
    unfold exec_go.Dir, exec_go.Stdin, exec_go.Stdout, exec_go.Stderr,
      exec_go.deref.
  - left. eexists. split; [reflexivity|exact Hv].
  - destruct (osexec.Stdin ec).
    + right. eexists. split; [reflexivity|repeat constructor].
    + left. eexists. split; [reflexivity|exact Hv].
  - rewrite Hv. right. eexists. split; [reflexivity|repeat constructor].
  - destruct (osexec.Stderr ec).
    + right. eexists. split; [reflexivity|repeat constructor].
    + left. eexists. split; [reflexivity|exact Hv].
Qed.

Lemma old_applyOptions_Stdout_conflict pre wr post : forall (oc : exec_go.Cmd) w tr ec v,
  Forall exec_go.builtin pre ->
  exec_go.Cmd_ oc = Some ec ->
  osexec.Stdout ec = Some v ->
  exists e,
    (exec_go.applyOptions (pre ++ exec_go.Stdout wr :: post)
       (exec_go.mkState oc w tr)).1 = Error e /\ alreadySet e.
Proof.
  induction pre as [|o pre IH]; intros oc w tr ec v Hpre Hc Hv.
  - cbn [app exec_go.applyOptions].
    unfold exec_go.andThen, exec_go.runOpt, exec_go.Stdout, exec_go.deref.
    cbn [exec_go.st_cmd exec_go.st_world]. rewrite Hc, Hv.
    eexists. split; [reflexivity|unfold alreadySet; repeat constructor].
  - inversion Hpre as [|? ? Ho Hrest]; subst.
    cbn [app exec_go.applyOptions]. unfold exec_go.andThen at 1.
    unfold exec_go.runOpt. cbn [exec_go.st_cmd exec_go.st_world]. rewrite Hc.
    destruct (old_builtin_keeps_Stdout o ec w v Ho Hv)
      as [(ec' & -> & Hv')|(e & He & Hset)].
    + eapply IH; [exact Hrest|reflexivity|exact Hv'].
    + destruct (o (Some ec) w) as [[r p] w']. cbn [fst] in He. subst r.
      exists e. split; [reflexivity|exact Hset].
Qed.

(** X15. Output of src/exec.go puts its Stdout option first, like the
    latest stage: on an initialised command, with options of that stage
    before a Stdout option of the caller, it returns an "already set"
    error and nothing reaches the platform (this stage does not read the
    environment either: the trace is unchanged). *)
Theorem old_Output_rejects_caller_Stdout t ec pre wr post :
  exec_go.initalised (exec_go.st_cmd t) = true ->
  exec_go.Cmd_ (exec_go.st_cmd t) = Some ec ->
  Forall exec_go.builtin pre ->
  (exists e,
      (exec_go.Output (pre ++ exec_go.Stdout wr :: post) t).1.2 = Error e /\
      alreadySet e) /\
  exec_go.st_trace (exec_go.Output (pre ++ exec_go.Stdout wr :: post) t).2 =
    exec_go.st_trace t.
Proof.
  intros Hi Hc Hpre. unfold exec_go.Output.
  destruct (new_Buffer (exec_go.st_world t)) as [b w']. cbn [app].
  set (t0 := exec_go.mkState (exec_go.st_cmd t) w' (exec_go.st_trace t)).
  assert (HR : exists e t',
             exec_go.Run
               (exec_go.Stdout (Some (bytes_Buffer b))
                :: pre ++ exec_go.Stdout wr :: post) t0 = (Error e, t') /\
             alreadySet e /\ exec_go.st_trace t' = exec_go.st_trace t).
  { unfold exec_go.Run. unfold exec_go.andThen at 1. unfold exec_go.Start.
    subst t0. cbn [exec_go.st_cmd]. rewrite Hi. cbn [negb].
    unfold exec_go.andThen at 1, exec_go.applyDefaultOptions.
    unfold exec_go.andThen at 1.
    pose proof (old_applyOptions_trace
                  (exec_go.Stdout (Some (bytes_Buffer b))
                   :: pre ++ exec_go.Stdout wr :: post)
                  (exec_go.mkState (exec_go.st_cmd t) w' (exec_go.st_trace t)))
      as Htr.
    assert (He : exists e,
               (exec_go.applyOptions
                  (exec_go.Stdout (Some (bytes_Buffer b))
                   :: pre ++ exec_go.Stdout wr :: post)
                  (exec_go.mkState (exec_go.st_cmd t) w'
                     (exec_go.st_trace t))).1 = Error e /\ alreadySet e).
    { cbn [exec_go.applyOptions]. unfold exec_go.andThen at 1.
      unfold exec_go.runOpt, exec_go.Stdout at 1, exec_go.deref.
      cbn [exec_go.st_cmd exec_go.st_world exec_go.st_trace]. rewrite Hc.
      destruct (osexec.Stdout ec) as [v|] eqn:Hv.
      - eexists. split; [reflexivity|unfold alreadySet; repeat constructor].
      - eapply old_applyOptions_Stdout_conflict;
          [exact Hpre|reflexivity|reflexivity]. }
    destruct He as (e & He & Hset).
    destruct (exec_go.applyOptions _ _) as [r t1]. cbn [fst snd] in *.
    subst r. exists e, t1. auto. }
  destruct HR as (e & t' & -> & Hset & Ht). cbn [fst snd]. eauto.
Qed.

(** A command of the first stage whose Stdout is bound: the options of
    that stage leave it bound, or fail. *)
Lemma first_bound_stays os :
  Forall exec_first.builtin os ->
  forall ec i w tr v,
  osexec.Stdout ec = Some v ->
  (exec_go.applyOptions os
     (exec_go.mkState (exec_go.mkCmd (Some ec) i) w tr)).1 =
    Error "exec: Stdout already set" \/
  exists ec',
    exec_go.applyOptions os
      (exec_go.mkState (exec_go.mkCmd (Some ec) i) w tr) =
      (Nil, exec_go.mkState (exec_go.mkCmd (Some ec') i) w tr) /\
    osexec.Stdout ec' = Some v.
Proof.
  induction 1 as [|o os Ho _ IH]; intros ec i w tr v Hv.
  - right. exists ec. split; [reflexivity|exact Hv].
  - cbn [exec_go.applyOptions]. unfold exec_go.andThen.
    unfold exec_go.runOpt. cbn [exec_go.st_cmd exec_go.st_world
      exec_go.st_trace exec_go.Cmd_ exec_go.initalised].
    destruct Ho as [d|wr].
    + unfold exec_go.Dir, exec_go.deref.
      apply (IH (osexec.set_Dir d ec) i w tr v). exact Hv.
    + unfold exec_go.Stdout, exec_go.deref. rewrite Hv. left. reflexivity.
Qed.

(** Once an option of the caller binds Stdout, the options of the first
    stage end with Stdout bound, or fail. *)
Lemma first_binding os :
  Forall exec_first.builtin os ->
  Exists (fun o => exists v, o = exec_go.Stdout (Some v)) os ->
  forall ec i w tr,
  (exec_go.applyOptions os
     (exec_go.mkState (exec_go.mkCmd (Some ec) i) w tr)).1 =
    Error "exec: Stdout already set" \/
  exists ec' v,
    exec_go.applyOptions os
      (exec_go.mkState (exec_go.mkCmd (Some ec) i) w tr) =
      (Nil, exec_go.mkState (exec_go.mkCmd (Some ec') i) w tr) /\
    osexec.Stdout ec' = Some v.
Proof.
  intros Hb Hex. induction Hex as [o os [v ->]|o os Hex IH];
    intros ec i w tr; inversion Hb as [|? ? Ho Hrest]; subst;
    cbn [exec_go.applyOptions]; unfold exec_go.andThen;
    unfold exec_go.runOpt; cbn [exec_go.st_cmd exec_go.st_world
      exec_go.st_trace exec_go.Cmd_ exec_go.initalised].
  - unfold exec_go.Stdout, exec_go.deref.
    destruct (osexec.Stdout ec) as [v0|] eqn:Hv; [left; reflexivity|].
    destruct (first_bound_stays os Hrest (osexec.set_Stdout (Some v) ec)
                i w tr v eq_refl) as [He|(ec' & He & Hv')].
    + left. exact He.
    + right. exists ec', v. split; assumption.
  - destruct Ho as [d|wr].
    + unfold exec_go.Dir, exec_go.deref. apply (IH Hrest).
    + unfold exec_go.Stdout, exec_go.deref.
      destruct (osexec.Stdout ec) as [v0|] eqn:Hv; [left; reflexivity|].
      apply (IH Hrest).
Qed.

(** Options that bind nothing never fail on a command whose Stdout is
    nil, and leave it nil; only the directory may change. *)
Lemma first_bindsNothing os :
  Forall bindsNothing os ->
  forall ec i w tr,
  osexec.Stdout ec = None ->
  exists ec',
    exec_go.applyOptions os
      (exec_go.mkState (exec_go.mkCmd (Some ec) i) w tr) =
      (Nil, exec_go.mkState (exec_go.mkCmd (Some ec') i) w tr) /\
    osexec.Stdout ec' = None /\
    osexec.Path ec' = osexec.Path ec /\
    osexec.Args ec' = osexec.Args ec /\
    osexec.Env ec' = osexec.Env ec /\
    osexec.Stdin ec' = osexec.Stdin ec /\
    osexec.Stderr ec' = osexec.Stderr ec.
Proof.
  induction 1 as [|o os Ho _ IH]; intros ec i w tr Hv.
  - exists ec. repeat split; try reflexivity; exact Hv.
  - cbn [exec_go.applyOptions]. unfold exec_go.andThen at 1.
    unfold exec_go.runOpt. cbn [exec_go.st_cmd exec_go.st_world
      exec_go.st_trace exec_go.Cmd_ exec_go.initalised].
    destruct Ho as [d|].
    + unfold exec_go.Dir, exec_go.deref.
      destruct (IH (osexec.set_Dir d ec) i w tr Hv) as (ec' & -> & Hrest).
      exists ec'. split; [reflexivity|exact Hrest].
    + unfold exec_go.Stdout, exec_go.deref. rewrite Hv.
      destruct (IH (osexec.set_Stdout None ec) i w tr eq_refl)
        as (ec' & -> & Hrest).
      exists ec'. split; [reflexivity|exact Hrest].
Qed.

(** X16. Output of the first stage puts its Stdout option last: when
    Stdout is bound already, or an option of the caller binds it, the
    call fails with "exec: Stdout already set" wherever that option
    stands, and no process is started. *)
Theorem first_Output_rejects_bound_Stdout t ec os :
  exec_go.initalised (exec_go.st_cmd t) = true ->
  exec_go.Cmd_ (exec_go.st_cmd t) = Some ec ->
  Forall exec_first.builtin os ->
  osexec.Stdout ec <> None \/
    Exists (fun o => exists v, o = exec_go.Stdout (Some v)) os ->
  (exec_first.Output os t).1.2 = Error "exec: Stdout already set" /\
  exec_go.st_trace (exec_first.Output os t).2 = exec_go.st_trace t.
Proof.
  intros Hi Hc Hb Hbound. destruct t as [[p i] w tr].
  cbn [exec_go.st_cmd exec_go.initalised exec_go.Cmd_ exec_go.st_trace] in *.
  subst p i. unfold exec_first.Output. cbn [exec_go.st_world
    exec_go.st_cmd exec_go.st_trace].
  destruct (new_Buffer w) as [b w'].
  assert (HR : exists t',
             exec_go.Run (os ++ [exec_go.Stdout (Some (bytes_Buffer b))])
               (exec_go.mkState (exec_go.mkCmd (Some ec) true) w' tr) =
               (Error "exec: Stdout already set", t') /\
             exec_go.st_trace t' = tr).
  { unfold exec_go.Run. unfold exec_go.andThen at 1. unfold exec_go.Start.
    cbn [exec_go.st_cmd exec_go.initalised negb].
    unfold exec_go.andThen at 1, exec_go.applyDefaultOptions.
    unfold exec_go.andThen at 1. rewrite old_applyOptions_app.
    unfold exec_go.andThen at 1.
    assert (Hcases :
      (exec_go.applyOptions os
         (exec_go.mkState (exec_go.mkCmd (Some ec) true) w' tr)).1 =
        Error "exec: Stdout already set" \/
      exists ec' v,
        exec_go.applyOptions os
          (exec_go.mkState (exec_go.mkCmd (Some ec) true) w' tr) =
          (Nil, exec_go.mkState (exec_go.mkCmd (Some ec') true) w' tr) /\
        osexec.Stdout ec' = Some v).
    { destruct Hbound as [Hne|Hex].
      - destruct (osexec.Stdout ec) as [v|] eqn:Hv; [|congruence].
        destruct (first_bound_stays os Hb ec true w' tr v Hv)
          as [He|(ec' & He & Hv')]; [left; exact He|].
        right. exists ec', v. split; assumption.
      - apply first_binding; assumption. }
    pose proof (old_applyOptions_trace os
                  (exec_go.mkState (exec_go.mkCmd (Some ec) true) w' tr))
      as Htr.
    destruct Hcases as [He|(ec' & v & He & Hv)].
    - destruct (exec_go.applyOptions os _) as [r t1]. cbn [fst snd] in *.
      subst r. exists t1. split; [reflexivity|exact Htr].
    - rewrite He. cbn [exec_go.applyOptions]. unfold exec_go.andThen at 1.
      unfold exec_go.runOpt, exec_go.Stdout, exec_go.deref.
      cbn [exec_go.st_cmd exec_go.st_world exec_go.st_trace exec_go.Cmd_
        exec_go.initalised]. rewrite Hv.
      eexists. split; reflexivity. }
  destruct HR as (t' & -> & Ht). cbn [fst snd]. split; [reflexivity|exact Ht].
Qed.

(** X17. The order of the capture option changed between the stages.
    With options of the caller that bind nothing (Dir, and Stdout with a
    nil writer) on a command whose Stdout is nil, Output of the first
    stage starts the process with Stdout bound to its own buffer and the
    rest of the command as it was; Output of src/exec.go, given a nil
    Stdout option among the same options, fails with
    "exec: Stdout already set" and starts nothing. *)
Theorem Output_capture_moved_first t ec os :
  exec_go.initalised (exec_go.st_cmd t) = true ->
  exec_go.Cmd_ (exec_go.st_cmd t) = Some ec ->
  osexec.Stdout ec = None ->
  Forall bindsNothing os ->
  (exists spec tr,
      exec_go.st_trace (exec_first.Output os t).2 =
        exec_go.st_trace t ++ EvProcessStart spec :: tr /\
      osexec.Stdout spec =
        Some (bytes_Buffer (new_Buffer (exec_go.st_world t)).1) /\
      osexec.Path spec = osexec.Path ec /\
      osexec.Args spec = osexec.Args ec /\
      osexec.Env spec = osexec.Env ec /\
      osexec.Stdin spec = osexec.Stdin ec /\
      osexec.Stderr spec = osexec.Stderr ec) /\
  (Exists (fun o => o = exec_go.Stdout None) os ->
   (exec_go.Output os t).1.2 = Error "exec: Stdout already set" /\
   exec_go.st_trace (exec_go.Output os t).2 = exec_go.st_trace t).
Proof.
  intros Hi Hc Hv Hos. destruct t as [[p i] w tr].
  cbn [exec_go.st_cmd exec_go.initalised exec_go.Cmd_ exec_go.st_trace
    exec_go.st_world] in *.
  subst p i. split.
  - unfold exec_first.Output. cbn [exec_go.st_world exec_go.st_cmd
      exec_go.st_trace].
    destruct (new_Buffer w) as [b w']. cbn [fst].
    destruct (first_bindsNothing os Hos ec true w' tr Hv)
      as (ec' & He & Hv' & HP & HA & HE & HI & HS).
    assert (HR : exists t' tr',
               exec_go.Run (os ++ [exec_go.Stdout (Some (bytes_Buffer b))])
                 (exec_go.mkState (exec_go.mkCmd (Some ec) true) w' tr) =
                 ((exec_go.Run
                     (os ++ [exec_go.Stdout (Some (bytes_Buffer b))])
                     (exec_go.mkState (exec_go.mkCmd (Some ec) true) w' tr)).1,
                  t') /\
               exec_go.st_trace t' =
                 tr ++ EvProcessStart
                         (osexec.set_Stdout (Some (bytes_Buffer b)) ec')
                       :: tr').
    { unfold exec_go.Run. unfold exec_go.andThen. unfold exec_go.Start.
      cbn [exec_go.st_cmd exec_go.initalised negb].
      unfold exec_go.andThen, exec_go.applyDefaultOptions.
      unfold exec_go.andThen. rewrite old_applyOptions_app.
      unfold exec_go.andThen. rewrite He.
      cbn [exec_go.applyOptions]. unfold exec_go.andThen.
      unfold exec_go.runOpt, exec_go.Stdout, exec_go.deref.
      cbn [exec_go.st_cmd exec_go.st_world exec_go.st_trace exec_go.Cmd_
        exec_go.initalised]. rewrite Hv'.
      unfold exec_go.Cmd_Start. cbn [exec_go.st_cmd exec_go.st_world
        exec_go.st_trace exec_go.Cmd_ exec_go.initalised].
      destruct (osexec_Start _ w') as [e w2]. destruct e as [e|]; cbn.
      - eexists _, []. split; reflexivity.
      - unfold exec_go.Wait. cbn [exec_go.st_cmd exec_go.st_world
          exec_go.st_trace exec_go.Cmd_ exec_go.initalised].
        destruct (osexec_Wait _ w2) as [e' w3].
        eexists _, [EvProcessWait]. split; [reflexivity|].
        cbn. rewrite <- app_assoc. reflexivity. }
    destruct HR as (t' & tr' & HR & Ht). rewrite HR. cbn [snd].
    exists (osexec.set_Stdout (Some (bytes_Buffer b)) ec'), tr'.
    split; [exact Ht|]. cbn. repeat split; assumption.
  - intros Hex. unfold exec_go.Output. cbn [exec_go.st_world exec_go.st_cmd
      exec_go.st_trace].
    destruct (new_Buffer w) as [b w']. cbn [app].
    assert (HR : exists t',
               exec_go.Run (exec_go.Stdout (Some (bytes_Buffer b)) :: os)
                 (exec_go.mkState (exec_go.mkCmd (Some ec) true) w' tr) =
                 (Error "exec: Stdout already set", t') /\
               exec_go.st_trace t' = tr).
    { unfold exec_go.Run. unfold exec_go.andThen at 1. unfold exec_go.Start.
      cbn [exec_go.st_cmd exec_go.initalised negb].
      unfold exec_go.andThen at 1, exec_go.applyDefaultOptions.
      unfold exec_go.andThen at 1.
      cbn [exec_go.applyOptions]. unfold exec_go.andThen at 1.
      unfold exec_go.runOpt, exec_go.Stdout at 1, exec_go.deref.
      cbn [exec_go.st_cmd exec_go.st_world exec_go.st_trace exec_go.Cmd_
        exec_go.initalised]. rewrite Hv.
      clear Hv. set (ec0 := osexec.set_Stdout (Some (bytes_Buffer b)) ec).
      assert (Hv0 : osexec.Stdout ec0 = Some (bytes_Buffer b))
        by reflexivity.
      clearbody ec0. revert ec0 Hv0.
      induction Hex as [o os' ->|o os' Hex IH]; intros ec0 Hv0;
        inversion Hos as [|? ? Ho Hrest]; subst;
        cbn [exec_go.applyOptions]; unfold exec_go.andThen at 1;
        unfold exec_go.runOpt; cbn [exec_go.st_cmd exec_go.st_world
          exec_go.st_trace exec_go.Cmd_ exec_go.initalised].
      - unfold exec_go.Stdout, exec_go.deref. rewrite Hv0.
        eexists. split; reflexivity.
      - destruct Ho as [d|].
        + unfold exec_go.Dir, exec_go.deref.
          apply (IH Hrest (osexec.set_Dir d ec0)). exact Hv0.
        + unfold exec_go.Stdout, exec_go.deref. rewrite Hv0.
          eexists. split; reflexivity. }
    destruct HR as (t' & -> & Ht). cbn [fst snd].
    split; [reflexivity|exact Ht].
Qed.

Lemma set_Cmd__self c : set_Cmd_ (Cmd_ c) c = c.
Proof. destruct c; reflexivity. Qed.

Lemma sameOption_lifts opt old : sameOption opt old -> lifts opt old.
Proof.
  intros [r|wr|wr|d|f] c w; try reflexivity;
    unfold Stdin, Stdout, Stderr, Dir, deref, custom, exec_go.Stdin,
      exec_go.Stdout, exec_go.Stderr, exec_go.Dir, exec_go.deref;
    destruct (Cmd_ c) as [ec|] eqn:Hc;
    try (rewrite <- Hc, set_Cmd__self; reflexivity).
  - destruct (osexec.Stdin ec); reflexivity.
  - destruct (osexec.Stdout ec); reflexivity.
  - destruct (osexec.Stderr ec); reflexivity.
  - reflexivity.
Qed.

(** A lifted option leaves the unexported fields alone, and the earlier
    stage sees of its result what its own option gives. *)
Lemma lifts_runOpt opt old s :
  lifts opt old ->
  exec_go.runOpt old (forget s) = ((runOpt opt s).1, forget (runOpt opt s).2) /\
  before (st_cmd (runOpt opt s).2) = before (st_cmd s) /\
  after (st_cmd (runOpt opt s).2) = after (st_cmd s) /\
  waited (st_cmd (runOpt opt s).2) = waited (st_cmd s).
Proof.
  intros Hl. unfold runOpt. rewrite (Hl (st_cmd s) (st_world s)).
  unfold custom, exec_go.runOpt, forget.
  cbn [exec_go.st_cmd exec_go.st_world exec_go.st_trace exec_go.Cmd_
    exec_go.initalised].
  destruct (old (Cmd_ (st_cmd s)) (st_world s)) as [[r p] w].
  repeat split.
Qed.

Lemma lifts_applyOptions opts olds :
  Forall2 lifts opts olds ->
  forall s,
  exec_go.applyOptions olds (forget s) =
    ((applyOptions opts s).1, forget (applyOptions opts s).2) /\
  before (st_cmd (applyOptions opts s).2) = before (st_cmd s) /\
  after (st_cmd (applyOptions opts s).2) = after (st_cmd s) /\
  waited (st_cmd (applyOptions opts s).2) = waited (st_cmd s).
Proof.
  induction 1 as [|opt old opts olds Hl _ IH]; intros s.
  - repeat split.
  - cbn [applyOptions exec_go.applyOptions].
    unfold andThen, exec_go.andThen.
    destruct (lifts_runOpt opt old s Hl) as (-> & Hb & Ha & Hw).
    destruct (runOpt opt s) as [r s1]. cbn [fst snd] in *.
    destruct r; try (repeat split; assumption).
    destruct (IH s1) as (-> & Hb' & Ha' & Hw').
    repeat split; congruence.
Qed.

Lemma forget_Cmd_Start s :
  exec_go.Cmd_Start (forget s) = ((Cmd_Start s).1, forget (Cmd_Start s).2).
Proof.
  unfold exec_go.Cmd_Start, Cmd_Start, forget.
  cbn [exec_go.st_cmd exec_go.st_world exec_go.st_trace exec_go.Cmd_].
  destruct (Cmd_ (st_cmd s)) as [ec|] eqn:Hc.
  - destruct (osexec_Start ec (st_world s)) as [e w]. cbn. rewrite Hc.
    reflexivity.
  - cbn. rewrite Hc. reflexivity.
Qed.

Lemma lifts_Start opts olds s ec :
  Forall2 lifts opts olds ->
  initalised (st_cmd s) = true ->
  Cmd_ (st_cmd s) = Some ec ->
  before (st_cmd s) = None ->
  exec_go.Start olds (forget (applyDefaultOptions s).2) =
    ((Start opts s).1, forget (Start opts s).2) /\
  after (st_cmd (Start opts s).2) = after (st_cmd s) /\
  waited (st_cmd (Start opts s).2) = waited (st_cmd s).
Proof.
  intros Hl Hi Hc Hb. rewrite (Start_unfold opts s ec Hi Hc).
  rewrite (applyDefaultOptions_spec s ec Hc). cbn [snd].
  set (s0 := mkState _ _ _).
  assert (Hf0 : before (st_cmd s0) = None /\
                after (st_cmd s0) = after (st_cmd s) /\
                waited (st_cmd s0) = waited (st_cmd s) /\
                initalised (st_cmd s0) = true)
    by (subst s0; cbn; auto).
  clearbody s0. destruct Hf0 as (Hb0 & Ha0 & Hw0 & Hi0).
  unfold exec_go.Start.
  replace (exec_go.initalised (exec_go.st_cmd (forget s0))) with true
    by (symmetry; exact Hi0).
  cbn [negb]. unfold exec_go.andThen at 1, exec_go.applyDefaultOptions.
  unfold exec_go.andThen, andThen, runBefore.
  destruct (lifts_applyOptions opts olds Hl s0) as (-> & Hb1 & Ha1 & Hw1).
  destruct (applyOptions opts s0) as [r s1]. cbn [fst snd] in *.
  destruct r; try (cbn [fst snd]; repeat split; congruence).
  rewrite Hb1, Hb0. rewrite forget_Cmd_Start.
  repeat split; rewrite ?Cmd_Start_cmd; congruence.
Qed.

(** X18. The latest stage refines src/exec.go.  On an initialised
    command without hooks, given options that are those of exec.go under
    the same name or the same closures over the embedded command, Start
    and Run of the latest stage do what Start and Run of exec.go do once
    the environment has been written into the command: same result, same
    embedded command, same world, same events after the reading of the
    environment. *)
Theorem latest_refines_exec_go opts olds s ec :
  Forall2 sameOption opts olds ->
  initalised (st_cmd s) = true ->
  Cmd_ (st_cmd s) = Some ec ->
  before (st_cmd s) = None ->
  after (st_cmd s) = None ->
  waited (st_cmd s) = false ->
  let s0 := mkState (set_Cmd_ (Some (withEnviron (st_world s) ec)) (st_cmd s))
              (st_world s) (st_trace s ++ defaultsTrace ec) in
  exec_go.Start olds (forget s0) =
    ((Start opts s).1, forget (Start opts s).2) /\
  exec_go.Run olds (forget s0) =
    ((Run opts s).1, forget (Run opts s).2).
Proof.
  intros Hsame Hi Hc Hb Ha Hw s0.
  assert (Hl : Forall2 lifts opts olds)
    by (eapply Forall2_impl; [exact Hsame|exact sameOption_lifts]).
  destruct (lifts_Start opts olds s ec Hl Hi Hc Hb) as (HS & Ha' & Hw').
  rewrite (applyDefaultOptions_spec s ec Hc) in HS. cbn [snd] in HS.
  fold s0 in HS. split; [exact HS|].
  unfold exec_go.Run, Run, exec_go.andThen, andThen. rewrite HS.
  destruct (Start opts s) as [r s2]. cbn [fst snd] in *.
  destruct r; try reflexivity.
  unfold Wait. rewrite Hw', Hw. unfold Cmd_Wait, exec_go.Wait, forget.
  cbn [st_cmd st_world st_trace set_waited Cmd_ exec_go.st_cmd
    exec_go.st_world exec_go.st_trace exec_go.Cmd_].
  destruct (Cmd_ (st_cmd s2)) as [ec2|] eqn:Hc2.
  - destruct (osexec_Wait ec2 (st_world s2)) as [e w].
    unfold deferredAfter. cbn [st_cmd set_waited after]. rewrite Ha', Ha.
    cbn. rewrite Hc2. reflexivity.
  - unfold deferredAfter. cbn [st_cmd set_waited after]. rewrite Ha', Ha.
    cbn. rewrite Hc2. reflexivity.
Qed.

(** An option of src/exec.go on a command: it returns nil and leaves the
    program, the arguments and the environment alone, or it changes
    nothing and returns an "already set" error. *)
Lemma old_builtin_keeps_Env o ec w :
  exec_go.builtin o ->
  (exists ec', o (Some ec) w = (Nil, Some ec', w) /\
               osexec.Path ec' = osexec.Path ec /\
               osexec.Args ec' = osexec.Args ec /\
               osexec.Env ec' = osexec.Env ec) \/
  (exists e, o (Some ec) w = (Error e, Some ec, w) /\ alreadySet e).
Proof.
  unfold alreadySet. intros [d|r|wr|wr];
    unfold exec_go.Dir, exec_go.Stdin, exec_go.Stdout, exec_go.Stderr,
      exec_go.deref.
  - left. eexists. repeat split.
  - destruct (osexec.Stdin ec).
    + right. eexists. split; [reflexivity|repeat constructor].
    + left. eexists. repeat split.
  - destruct (osexec.Stdout ec).
    + right. eexists. split; [reflexivity|repeat constructor].
    + left. eexists. repeat split.
  - destruct (osexec.Stderr ec).
    + right. eexists. split; [reflexivity|repeat constructor].
    + left. eexists. repeat split.
Qed.

Lemma old_applyOptions_keeps_Env os :
  Forall exec_go.builtin os ->
  forall ec i w tr,
  (exists e t',
      exec_go.applyOptions os
        (exec_go.mkState (exec_go.mkCmd (Some ec) i) w tr) = (Error e, t') /\
      alreadySet e) \/
  (exists ec',
      exec_go.applyOptions os
        (exec_go.mkState (exec_go.mkCmd (Some ec) i) w tr) =
        (Nil, exec_go.mkState (exec_go.mkCmd (Some ec') i) w tr) /\
      osexec.Path ec' = osexec.Path ec /\
      osexec.Args ec' = osexec.Args ec /\
      osexec.Env ec' = osexec.Env ec).
Proof.
  induction 1 as [|o os Ho _ IH]; intros ec i w tr.
  - right. exists ec. repeat split.
  - cbn [exec_go.applyOptions]. unfold exec_go.andThen, exec_go.runOpt.
    cbn [exec_go.st_cmd exec_go.st_world exec_go.st_trace exec_go.Cmd_
      exec_go.initalised].
    destruct (old_builtin_keeps_Env o ec w Ho)
      as [(ec1 & -> & HP & HA & HE)|(e & -> & Hset)].
    + destruct (IH ec1 i w tr)
        as [(e & t' & -> & Hset)|(ec' & -> & HP' & HA' & HE')].
      * left. eauto.
      * right. exists ec'. repeat split; congruence.
    + left. eauto.
Qed.

(** X19. Start of src/exec.go never reads the environment.  On an
    initialised command with options of that stage, it stops at an
    "already set" error with nothing recorded, or it hands the platform
    one process whose program, arguments and environment are those of
    the command before the call; a nil environment stays nil. *)
Theorem old_Start_keeps_Env t ec os :
  exec_go.initalised (exec_go.st_cmd t) = true ->
  exec_go.Cmd_ (exec_go.st_cmd t) = Some ec ->
  Forall exec_go.builtin os ->
  ((exists e, (exec_go.Start os t).1 = Error e /\ alreadySet e) /\
   exec_go.st_trace (exec_go.Start os t).2 = exec_go.st_trace t) \/
  (exists spec,
      exec_go.st_trace (exec_go.Start os t).2 =
        exec_go.st_trace t ++ [EvProcessStart spec] /\
      osexec.Path spec = osexec.Path ec /\
      osexec.Args spec = osexec.Args ec /\
      osexec.Env spec = osexec.Env ec).
Proof.
  intros Hi Hc Hos. destruct t as [[p i] w tr].
  cbn [exec_go.st_cmd exec_go.initalised exec_go.Cmd_ exec_go.st_trace] in *.
  subst p i. unfold exec_go.Start. cbn [exec_go.st_cmd exec_go.initalised negb].
  unfold exec_go.andThen at 1, exec_go.applyDefaultOptions.
  unfold exec_go.andThen.
  pose proof (old_applyOptions_trace os
                (exec_go.mkState (exec_go.mkCmd (Some ec) true) w tr)) as Htr.
  destruct (old_applyOptions_keeps_Env os Hos ec true w tr)
    as [(e & t' & He & Hset)|(ec' & He & HP & HA & HE)]; rewrite He in *.
  - left. cbn [fst snd] in *. split; [eauto|exact Htr].
  - right. unfold exec_go.Cmd_Start.
    cbn [exec_go.st_cmd exec_go.st_world exec_go.st_trace exec_go.Cmd_].
    destruct (osexec_Start ec' w) as [e w2]. cbn [snd exec_go.st_trace].
    exists ec'. repeat split; assumption.
Qed.

(** X20. Setenv given to Start works on the inherited environment.  On
    an initialised command whose environment is nil and that has no
    before-hook, Start with Setenv reads the environment of the invoking
    process first and hands the platform the command with that
    environment and the key set in it; the same option applied to the
    command itself, before any Start, leaves the one entry alone in the
    environment. *)
Theorem Start_Setenv_inherits s ec K v :
  initalised (st_cmd s) = true ->
  Cmd_ (st_cmd s) = Some ec ->
  osexec.Env ec = None ->
  before (st_cmd s) = None ->
  st_trace (Start [Setenv K v] s).2 =
    st_trace s ++
    [EvEnviron;
     EvProcessStart
       (osexec.set_Env (Some (envSet K v (os_Environ (st_world s)))) ec)] /\
  (Setenv K v (st_cmd s) (st_world s)).1.2 =
    set_Cmd_ (Some (osexec.set_Env (Some [(K +:+ "=") +:+ v]) ec)) (st_cmd s).
Proof.
  intros Hi Hc He Hb. split.
  - rewrite (Start_unfold _ s ec Hi Hc).
    rewrite (applyDefaultOptions_spec s ec Hc). cbn [snd].
    unfold withEnviron, defaultsTrace. rewrite He.
    cbn [applyOptions]. unfold andThen, runOpt.
    cbn [st_cmd st_world st_trace].
    rewrite (Setenv_spec K v
               (set_Cmd_
                  (Some (osexec.set_Env (Some (os_Environ (st_world s))) ec))
                  (st_cmd s))
               (st_world s)
               (osexec.set_Env (Some (os_Environ (st_world s))) ec) eq_refl).
    unfold runBefore. cbn [st_cmd set_Cmd_ before]. rewrite Hb.
    unfold Cmd_Start. cbn [st_cmd st_world st_trace set_Cmd_ Cmd_].
    destruct (osexec_Start _ _) as [e w]. cbn [snd st_trace].
    rewrite <- app_assoc. destruct ec. reflexivity.
  - rewrite (Setenv_spec K v _ _ ec Hc). cbn [fst snd]. rewrite He.
    reflexivity.
Qed.

End MoreProofs.

(** ** The further properties on the simulated platform *)

(** X1 on the git command: the second directory is the one that stays. *)
Lemma Dir_overwrites_witness :
  Cmd_ (st_cmd sim_git) = Some (osexec.Command "git" ["status"]) /\
  Dir "/b" (Dir "/a" (st_cmd sim_git) sim_world).1.2
      (Dir "/a" (st_cmd sim_git) sim_world).2 =
    Dir "/b" (st_cmd sim_git) sim_world.
Proof.
  split; [reflexivity|].
  exact (proj2 (Dir_overwrites (st_cmd sim_git) sim_world
                  (osexec.Command "git" ["status"]) "/a" "/b" eq_refl)).
Defined.

(** X2 on a command whose Stdout is bound. *)
Lemma builtin_failure_changes_nothing_witness :
  builtin (Stdout (Some (bytes_Buffer 0))) /\
  (Stdout (Some (bytes_Buffer 0)) (st_cmd sim_bound) sim_world).2 =
    sim_world /\
  (Stdout (Some (bytes_Buffer 0)) (st_cmd sim_bound) sim_world).1.2 =
    st_cmd sim_bound.
Proof.
  split; [constructor|].
  destruct (builtin_failure_changes_nothing
              (Stdout (Some (bytes_Buffer 0))) (st_cmd sim_bound) sim_world
              (builtin_Stdout _)) as [Hw Herr].
  split; [exact Hw|].
  exact (proj2 (Herr "exec: Stdout already set" eq_refl)).
Defined.

(** X3 on an environment that holds the key twice: the first entry is
    overwritten, the second and the one of the other key stay. *)
Lemma Setenv_keeps_other_entries_witness :
  Cmd_ (st_cmd (applyDefaultOptions sim_go).2) =
    Some (@withEnviron sim sim_duplicates (osexec.Command "go" [])) /\
  envOf (Setenv "K" "c" (st_cmd (applyDefaultOptions sim_go).2)
           sim_duplicates).1.2 !! 1 = Some "HOME=/root" /\
  entriesFor "K"
    (envOf (Setenv "K" "c" (st_cmd (applyDefaultOptions sim_go).2)
              sim_duplicates).1.2) = ["K=c"; "K=b"].
Proof.
  split; [reflexivity|].
  destruct (Setenv_keeps_other_entries
              (st_cmd (applyDefaultOptions sim_go).2) sim_duplicates
              (@withEnviron sim sim_duplicates (osexec.Command "go" []))
              "K" "c" eq_refl) as (_ & _ & Hother & Hent).
  split; [exact (Hother 1 "HOME=/root" eq_refl eq_refl)|exact Hent].
Defined.

(** X4 on the same environment and the key HOME. *)
Lemma Setenv_leaves_other_keys_witness :
  Cmd_ (st_cmd (applyDefaultOptions sim_go).2) =
    Some (@withEnviron sim sim_duplicates (osexec.Command "go" [])) /\
  noEquals "K" = true /\ noEquals "HOME" = true /\ "K" <> "HOME" /\
  entriesFor "HOME"
    (envOf (Setenv "K" "c" (st_cmd (applyDefaultOptions sim_go).2)
              sim_duplicates).1.2) = ["HOME=/root"].
Proof.
  assert (Hne : "K" <> "HOME") by discriminate.
  split; [reflexivity|]. split; [reflexivity|]. split; [reflexivity|].
  split; [exact Hne|].
  exact (Setenv_leaves_other_keys
           (st_cmd (applyDefaultOptions sim_go).2) sim_duplicates
           (@withEnviron sim sim_duplicates (osexec.Command "go" []))
           "K" "HOME" "c" eq_refl eq_refl eq_refl Hne).
Defined.

(** X5 on the git command. *)
Lemma Setenv_last_wins_witness :
  Cmd_ (st_cmd sim_git) = Some (osexec.Command "git" ["status"]) /\
  applyOptions [Setenv "K" "a"; Setenv "K" "b"] sim_git =
    applyOptions [Setenv "K" "b"] sim_git.
Proof.
  split; [reflexivity|].
  exact (proj1 (Setenv_last_wins sim_git (osexec.Command "git" ["status"])
                  "K" "a" "b" eq_refl)).
Defined.

(** X7 on a command whose Stdout is bound, run with a Stdout option. *)
Lemma Run_without_Wait_witness :
  (Start [Stdout (Some (bytes_Buffer 0))] sim_bound).1 <> Nil /\
  Run [Stdout (Some (bytes_Buffer 0))] sim_bound =
    Start [Stdout (Some (bytes_Buffer 0))] sim_bound.
Proof.
  assert (Hf : (Start [Stdout (Some (bytes_Buffer 0))] sim_bound).1 <> Nil)
    by (vm_compute; discriminate).
  split; [exact Hf|].
  exact (proj1 (Run_without_Wait [Stdout (Some (bytes_Buffer 0))] sim_bound
                  Hf)).
Defined.

(** X8 on the git command: a second Run fails at its Wait. *)
Lemma Run_cannot_be_reused_witness :
  (Start [] sim_git).1 = Nil /\
  Forall keepsWaited [Dir "/tmp"] /\
  (Run [Dir "/tmp"] (Run [] sim_git).2).1 =
    Error "exec: Wait was already called".
Proof.
  assert (Hk : Forall keepsWaited [@Dir sim "/tmp"])
    by (repeat constructor; apply builtin_keepsWaited; constructor).
  split; [reflexivity|]. split; [exact Hk|].
  destruct (Run_cannot_be_reused [] [Dir "/tmp"] sim_git eq_refl Hk)
    as (_ & _ & Hlast).
  exact (Hlast eq_refl).
Defined.

(** X9 on the zero value, after a Wait and a Start. *)
Lemma uninitialised_for_good_witness :
  initalised (st_cmd sim_zero) = false /\
  Run [Dir "/tmp"] (calls [CallWait; CallStart []] sim_zero) =
    (Error "exec: command not initalised",
     calls [CallWait; CallStart []] sim_zero).
Proof.
  split; [reflexivity|].
  destruct (uninitialised_for_good sim_zero [CallWait; CallStart []]
              [Dir "/tmp"] eq_refl) as (_ & _ & HR & _).
  exact HR.
Defined.

(** X10 on the zero value with an after-hook. *)
Lemma Wait_on_nil_pointer_witness :
  Cmd_ (st_cmd sim_nil) = None /\
  waited (st_cmd sim_nil) = false /\
  (Wait sim_nil).1 = Panics /\
  st_trace (Wait sim_nil).2 = [EvAfter].
Proof.
  split; [reflexivity|]. split; [reflexivity|].
  destruct (Wait_on_nil_pointer sim_nil eq_refl eq_refl) as (Hr & _ & Ht).
  split; [exact Hr|exact Ht].
Defined.

(** X11 on a command whose Stdout is bound. *)
Lemma Output_on_bound_Stdout_witness :
  initalised (st_cmd sim_bound) = true /\
  osexec.Stdout (osexec.set_Stdout (Some os_Stdout)
                   (osexec.Command "git" ["status"])) = Some os_Stdout /\
  (Output [Dir "/tmp"] sim_bound).1.2 = Error "exec: Stdout already set" /\
  st_trace (Output [Dir "/tmp"] sim_bound).2 = [EvEnviron].
Proof.
  split; [reflexivity|]. split; [reflexivity|].
  destruct (Output_on_bound_Stdout [Dir "/tmp"] sim_bound
              (osexec.set_Stdout (Some os_Stdout)
                 (osexec.Command "git" ["status"]))
              os_Stdout eq_refl eq_refl eq_refl) as (Hr & _ & Ht).
  split; [exact Hr|exact Ht].
Defined.

(** X12 on the echo command with a directory. *)
Lemma Output_binds_its_buffer_witness :
  initalised (st_cmd sim_echo) = true /\
  before (st_cmd sim_echo) = None /\
  Forall plain [Dir "/tmp"] /\
  exists spec tr,
    st_trace (Output [Dir "/tmp"] sim_echo).2 =
      [EvEnviron; EvProcessStart spec] ++ tr /\
    osexec.Stdout spec = Some (bytes_Buffer 0).
Proof.
  assert (Hp : Forall plain [@Dir sim "/tmp"]) by (repeat constructor).
  split; [reflexivity|]. split; [reflexivity|]. split; [exact Hp|].
  destruct (Output_binds_its_buffer [Dir "/tmp"] sim_echo
              (osexec.Command "echo" ["hello"])
              eq_refl eq_refl eq_refl eq_refl Hp)
    as (spec & tr & Ht & Hs & _).
  exists spec, tr. split; [exact Ht|exact Hs].
Defined.

(** X13 on the sleep command of the example, with a before-hook that
    sets the directory and an after-hook that fails. *)
Lemma Run_calls_hooks_in_order_witness :
  hook_ok (Some (@withEnviron sim sim_world (osexec.Command "sleep" ["60s"])))
      sim_world =
    (Nil,
     Some (osexec.set_Dir "/tmp"
             (@withEnviron sim sim_world (osexec.Command "sleep" ["60s"]))),
     sim_world) /\
  st_trace (Run [BeforeFunc (Some hook_ok); AfterFunc (Some hook_fails)]
              sim_hooks).2 =
    [EvEnviron; EvBefore;
     EvProcessStart
       (osexec.set_Dir "/tmp"
          (@withEnviron sim sim_world (osexec.Command "sleep" ["60s"])));
     EvProcessWait; EvAfter] /\
  (Run [BeforeFunc (Some hook_ok); AfterFunc (Some hook_fails)]
     sim_hooks).1 = Error "hook failed".
Proof.
  split; [reflexivity|].
  destruct (Run_calls_hooks_in_order sim_hooks
              (osexec.Command "sleep" ["60s"]) hook_ok hook_fails
              (osexec.set_Dir "/tmp"
                 (@withEnviron sim sim_world (osexec.Command "sleep" ["60s"])))
              sim_world sim_world
              eq_refl eq_refl eq_refl eq_refl eq_refl eq_refl eq_refl)
    as (Ht & _ & Hr).
  split; [exact Ht|exact Hr].
Defined.

(** X14 on a command of two spaces. *)
Lemma System_blank_command_witness :
  blank "  " = true /\
  exists spec tr,
    st_trace (@System sim "  " [] sim_world).2 =
      EvEnviron :: EvProcessStart spec :: tr /\
    osexec.Args spec = ["/bin/sh"; "-c"].
Proof.
  split; [reflexivity|].
  destruct (@System_blank_command sim "  " sim_world eq_refl) as (tr & Ht).
  eexists _, tr. split; [exact Ht|reflexivity].
Defined.

(** X15 on the git command of the earlier stage. *)
Lemma old_Output_rejects_caller_Stdout_witness :
  exec_go.initalised (exec_go.st_cmd sim_old) = true /\
  Forall exec_go.builtin [exec_go.Dir "/tmp"] /\
  exec_go.st_trace
    (exec_go.Output ([exec_go.Dir "/tmp"] ++
                     exec_go.Stdout (Some os_Stdout) :: []) sim_old).2 = [].
Proof.
  assert (Hb : Forall exec_go.builtin [@exec_go.Dir sim "/tmp"])
    by (repeat constructor).
  split; [reflexivity|]. split; [exact Hb|].
  exact (proj2 (old_Output_rejects_caller_Stdout sim_old
                  (osexec.Command "git" ["status"]) [exec_go.Dir "/tmp"]
                  (Some os_Stdout) [] eq_refl eq_refl Hb)).
Defined.

(** X16 on the git command of the first stage, the caller's Stdout
    option standing first. *)
Lemma first_Output_rejects_bound_Stdout_witness :
  exec_go.initalised (exec_go.st_cmd sim_old) = true /\
  Forall exec_first.builtin
    [exec_go.Stdout (Some os_Stdout); exec_go.Dir "/tmp"] /\
  (exec_first.Output [exec_go.Stdout (Some os_Stdout); exec_go.Dir "/tmp"]
     sim_old).1.2 = Error "exec: Stdout already set".
Proof.
  assert (Hb : Forall exec_first.builtin
                 [@exec_go.Stdout sim (Some os_Stdout); exec_go.Dir "/tmp"])
    by (repeat constructor).
  split; [reflexivity|]. split; [exact Hb|].
  refine (proj1 (first_Output_rejects_bound_Stdout sim_old
                   (osexec.Command "git" ["status"]) _ eq_refl eq_refl Hb
                   (or_intror _))).
  apply Exists_cons_hd. exists os_Stdout. reflexivity.
Defined.

(** X17 on the git command and a nil Stdout option. *)
Lemma Output_capture_moved_first_witness :
  osexec.Stdout (osexec.Command "git" ["status"]) = None /\
  Forall bindsNothing [exec_go.Stdout None] /\
  (exists spec tr,
      exec_go.st_trace (exec_first.Output [exec_go.Stdout None] sim_old).2 =
        EvProcessStart spec :: tr /\
      osexec.Stdout spec = Some (bytes_Buffer 0)) /\
  (exec_go.Output [exec_go.Stdout None] sim_old).1.2 =
    Error "exec: Stdout already set".
Proof.
  assert (Hb : Forall bindsNothing [@exec_go.Stdout sim None])
    by (repeat constructor).
  split; [reflexivity|]. split; [exact Hb|].
  destruct (Output_capture_moved_first sim_old
              (osexec.Command "git" ["status"]) [exec_go.Stdout None]
              eq_refl eq_refl eq_refl Hb)
    as ((spec & tr & Ht & Hs & _) & Hold).
  split.
  - exists spec, tr. split; [exact Ht|exact Hs].
  - apply Hold. apply Exists_cons_hd. reflexivity.
Defined.

(** X18 on the git command with a directory and a Stdout option. *)
Lemma latest_refines_exec_go_witness :
  Forall2 sameOption [Dir "/tmp"; Stdout (Some os_Stdout)]
    [exec_go.Dir "/tmp"; exec_go.Stdout (Some os_Stdout)] /\
  initalised (st_cmd sim_git) = true /\
  before (st_cmd sim_git) = None /\
  after (st_cmd sim_git) = None /\
  waited (st_cmd sim_git) = false /\
  exec_go.Run [exec_go.Dir "/tmp"; exec_go.Stdout (Some os_Stdout)]
    (forget (applyDefaultOptions sim_git).2) =
    ((Run [Dir "/tmp"; Stdout (Some os_Stdout)] sim_git).1,
     forget (Run [Dir "/tmp"; Stdout (Some os_Stdout)] sim_git).2).
Proof.
  assert (Hs : Forall2 sameOption
                 [@Dir sim "/tmp"; Stdout (Some os_Stdout)]
                 [exec_go.Dir "/tmp"; exec_go.Stdout (Some os_Stdout)])
    by (repeat constructor).
  split; [exact Hs|]. repeat (split; [reflexivity|]).
  exact (proj2 (latest_refines_exec_go _ _ sim_git
                  (osexec.Command "git" ["status"]) Hs
                  eq_refl eq_refl eq_refl eq_refl eq_refl)).
Defined.

(** X19 on the git command of the earlier stage: the environment handed
    to the platform is nil. *)
Lemma old_Start_keeps_Env_witness :
  exec_go.initalised (exec_go.st_cmd sim_old) = true /\
  Forall exec_go.builtin [exec_go.Dir "/tmp"] /\
  exists spec,
    exec_go.st_trace (exec_go.Start [exec_go.Dir "/tmp"] sim_old).2 =
      [EvProcessStart spec] /\
    osexec.Env spec = None.
Proof.
  assert (Hb : Forall exec_go.builtin [@exec_go.Dir sim "/tmp"])
    by (repeat constructor).
  split; [reflexivity|]. split; [exact Hb|].
  destruct (old_Start_keeps_Env sim_old (osexec.Command "git" ["status"])
              [exec_go.Dir "/tmp"] eq_refl eq_refl Hb)
    as [((e & He & _) & _)|(spec & Ht & _ & _ & HE)].
  - discriminate He.
  - exists spec. split; [exact Ht|exact HE].
Defined.

(** X20 on the go command of the example. *)
Lemma Start_Setenv_inherits_witness :
  initalised (st_cmd sim_go) = true /\
  osexec.Env (osexec.Command "go" []) = None /\
  before (st_cmd sim_go) = None /\
  st_trace (Start [Setenv "GOPATH" "/foo"] sim_go).2 =
    [EvEnviron;
     EvProcessStart
       (osexec.set_Env
          (Some ["K=a"; "HOME=/root"; "K=b"; "GOPATH=/foo"])
          (osexec.Command "go" []))].
Proof.
  repeat (split; [reflexivity|]).
  exact (proj1 (Start_Setenv_inherits sim_go (osexec.Command "go" [])
                  "GOPATH" "/foo" eq_refl eq_refl eq_refl eq_refl)).
Defined.
